(** * Notificaciones.py: Observer + Factory Method

    A shallow embedding of [POO UNIDAD 2/Notificaciones.py].

    - A Python [str] is a list of Unicode code points.
    - Every [print] of the program is recorded as a structured line in the
      output of the world; the text layout of the lines is not modelled.
    - Objects have identity: an observer is a reference, and the objects
      themselves live in a store that maps references to their state.
    - Code that may raise runs in a state-and-exception monad.
    - The diagnostic of line 110 is built with the [__repr__] and [__str__]
      of classes that are not part of the program: whether they raise is a
      parameter, [falla_formato].
    - [print] never fails, except in the definitions named [_stdout], which
      repeat the program over a standard output that may refuse a line
      ([falla_print]). *)

From Stdlib Require Import List NArith Arith Bool String Ascii Lia.
Import ListNotations.

Set Implicit Arguments.
Set Default Proof Using "Type".

(** ** Python strings *)

Definition codepoint := N.
Definition str := list codepoint.

(** A string literal of the source (all literals of the file are ASCII). *)
Definition lit (s : string) : str := map N_of_ascii (list_ascii_of_string s).

Fixpoint str_eqb (a b : str) : bool :=
  match a, b with
  | [], [] => true
  | x :: a', y :: b' => N.eqb x y && str_eqb a' b'
  | _, _ => false
  end.

(** [str.isspace] on one code point: the code points CPython's
    [_PyUnicode_IsWhitespace] accepts. *)
Definition isspace (c : codepoint) : bool :=
  ((9 <=? c) && (c <=? 13) || (28 <=? c) && (c <=? 32)
   || (c =? 133) || (c =? 160) || (c =? 5760)
   || (8192 <=? c) && (c <=? 8202)
   || (c =? 8232) || (c =? 8233) || (c =? 8239) || (c =? 8287)
   || (c =? 12288))%N.

Fixpoint lstrip (s : str) : str :=
  match s with
  | [] => []
  | c :: r => if isspace c then lstrip r else s
  end.

Definition rstrip (s : str) : str := rev (lstrip (rev s)).

(** [s.strip()] *)
Definition strip (s : str) : str := rstrip (lstrip s).

Definition is_ascii (c : codepoint) : bool := (c <? 128)%N.

(** Lower-casing of an ASCII code point: [A-Z] move to [a-z]. *)
Definition ascii_lower (c : codepoint) : codepoint :=
  if ((65 <=? c) && (c <=? 90))%N then (c + 32)%N else c.

(** [a or b] on strings: the empty string is falsy. *)
Definition str_or (a b : str) : str :=
  match a with
  | [] => b
  | _ :: _ => a
  end.

(** The notifier classes (lines 43-58), all without state. *)
Inductive INotificacion : Type :=
| EmailNotificacion
| SMSNotificacion
| PushNotificacion.

(** ** Objects, exceptions and output *)

(** An object reference (the identity of a Python object). Neither
    [IObservador] nor [Usuario] defines [__eq__], so [obs in lista] compares
    identities. *)
Definition ref := nat.

(** A raised exception: whether it is an instance of [Exception] (what
    [except Exception] tests; [SystemExit], [KeyboardInterrupt] and
    [GeneratorExit] are not) and its text [str(e)]. *)
Record excepcion : Type := {
  es_Exception : bool;
  detalle : str
}.

(** [ValueError], raised by [list.remove] when the element is missing. *)
Definition ValueError : excepcion :=
  {| es_Exception := true; detalle := lit "list.remove(x): x not in list" |}.

(** The state of a [Usuario] object (lines 130-135). *)
Record Usuario : Type := {
  nombre : str;
  email : str;
  telefono : str;
  canales_preferidos : list str
}.

(** [Usuario.__init__]: [canales] is [None] when the argument is left out or
    passed as [None]. Line 135: [canales_preferidos or ["email"]]. *)
Definition Usuario_init (nombre email telefono : str)
    (canales : option (list str)) : Usuario :=
  {| nombre := nombre;
     email := email;
     telefono := telefono;
     canales_preferidos :=
       match canales with
       | None => [lit "email"]
       | Some [] => [lit "email"]
       | Some (c :: r) => c :: r
       end |}.

(** What an observer other than [Usuario] does in its [actualizar]: it may
    subscribe and unsubscribe observers, print, look at the subscriber list,
    change the state of an object, and it ends by returning or by raising.
    Calling [notificar_observadores] again from inside [actualizar] is not
    modelled. *)
Inductive programa : Type :=
| Retorna
| Lanza (e : excepcion)
| Agrega (obs : ref) (k : programa)
| Elimina (obs : ref) (k : programa)
| Escribe (texto : str) (k : programa)
| Consulta (k : list ref -> programa)
| Muta (obs : ref) (nuevo : observador) (k : programa)
with observador : Type :=
| ObsUsuario (u : Usuario)
| ObsOtro (actualizar : str -> programa).

(** One printed line, by the [print] that writes it. *)
Inductive linea : Type :=
| L_observador_agregado (obs : ref)              (* line 97 *)
| L_observador_eliminado (obs : ref)             (* line 102 *)
| L_notificando (n : nat) (mensaje : str)        (* line 105 *)
| L_error_notificando (obs : ref) (e : str)      (* line 110 *)
| L_usuario_recibe (nombre mensaje : str)        (* line 145 *)
| L_canal_desconocido (nombre canal : str)       (* line 149 *)
| L_email (destino mensaje : str)                (* line 46 *)
| L_sms (destino mensaje : str)                  (* line 52 *)
| L_push (destino mensaje : str)                 (* line 58 *)
| L_texto (texto : str).                         (* a print of another observer *)

(** The output records the printed lines and, between them, every call
    [obs.actualizar(mensaje)] made by the subject (line 108). *)
Inductive evento : Type :=
| Imprime (l : linea)
| Llama (obs : ref) (mensaje : str).

(** The subject (lines 86-92). *)
Record Notificacion : Type := {
  _observadores : list ref
}.

Definition Notificacion_init : Notificacion := {| _observadores := [] |}.

Record mundo : Type := {
  sistema : Notificacion;
  objetos : ref -> observador;
  salida : list evento
}.

(** ** The monad of the program: state and exceptions *)

Inductive resultado (A : Type) : Type :=
| Normal (a : A)
| Lanzada (e : excepcion).
Arguments Normal {A} a.
Arguments Lanzada {A} e.

Definition M (A : Type) : Type := mundo -> resultado A * mundo.

Definition ret {A} (a : A) : M A := fun w => (Normal a, w).

Definition bind {A B} (c : M A) (f : A -> M B) : M B :=
  fun w =>
    match c w with
    | (Normal a, w') => f a w'
    | (Lanzada e, w') => (Lanzada e, w')
    end.

Notation "x <- c ;; k" := (bind c (fun x => k))
  (at level 61, c at next level, right associativity).
Notation "c ;; k" := (bind c (fun _ => k))
  (at level 61, right associativity).

Definition raise {A} (e : excepcion) : M A := fun w => (Lanzada e, w).

Definition registrar (ev : evento) (w : mundo) : mundo :=
  {| sistema := sistema w; objetos := objetos w; salida := salida w ++ [ev] |}.

Definition print (l : linea) : M unit :=
  fun w => (Normal tt, registrar (Imprime l) w).

Definition leer_observadores : M (list ref) :=
  fun w => (Normal (_observadores (sistema w)), w).

Definition guardar_observadores (l : list ref) : M unit :=
  fun w => (Normal tt,
            {| sistema := {| _observadores := l |};
               objetos := objetos w; salida := salida w |}).

Definition poner_objeto (obs : ref) (nuevo : observador) : M unit :=
  fun w => (Normal tt,
            {| sistema := sistema w;
               objetos := fun r => if Nat.eqb r obs then nuevo else objetos w r;
               salida := salida w |}).

(** [for x in l: cuerpo(x)] over a list that the body does not change. *)
Fixpoint for_each {A} (l : list A) (cuerpo : A -> M unit) : M unit :=
  match l with
  | [] => ret tt
  | x :: r => cuerpo x ;; for_each r cuerpo
  end.

(** [try: cuerpo  except Exception as e: manejador(e)] *)
Definition try_except_Exception (cuerpo : M unit)
    (manejador : excepcion -> M unit) : M unit :=
  fun w =>
    match cuerpo w with
    | (Normal a, w') => (Normal a, w')
    | (Lanzada e, w') =>
        if es_Exception e then manejador e w' else (Lanzada e, w')
    end.

Definition estado {A} (c : M A) (w : mundo) : mundo := snd (c w).
Definition valor {A} (c : M A) (w : mundo) : resultado A := fst (c w).

(** ** The subject's list operations *)

(** [obs in lista] *)
Definition en_lista (obs : ref) (l : list ref) : bool :=
  existsb (Nat.eqb obs) l.

(** [lista.remove(obs)]: the first occurrence goes; [None] stands for the
    [ValueError] of a missing element. *)
Fixpoint list_remove (obs : ref) (l : list ref) : option (list ref) :=
  match l with
  | [] => None
  | x :: r =>
      if Nat.eqb x obs then Some r
      else match list_remove obs r with
           | Some r' => Some (x :: r')
           | None => None
           end
  end.

(** [Notificacion.agregar_observador] (lines 94-97) *)
Definition agregar_observador (obs : ref) : M unit :=
  l <- leer_observadores ;;
  if negb (en_lista obs l) then
    guardar_observadores (l ++ [obs]) ;;
    print (L_observador_agregado obs)
  else ret tt.

(** [Notificacion.eliminar_observador] (lines 99-102) *)
Definition eliminar_observador (obs : ref) : M unit :=
  l <- leer_observadores ;;
  if en_lista obs l then
    match list_remove obs l with
    | Some l' =>
        guardar_observadores l' ;;
        print (L_observador_eliminado obs)
    | None => raise ValueError
    end
  else ret tt.

(** Running the [actualizar] of an observer that is not a [Usuario]. *)
Fixpoint ejecutar (p : programa) : M unit :=
  match p with
  | Retorna => ret tt
  | Lanza e => raise e
  | Agrega obs k => agregar_observador obs ;; ejecutar k
  | Elimina obs k => eliminar_observador obs ;; ejecutar k
  | Escribe texto k => print (L_texto texto) ;; ejecutar k
  | Consulta k => l <- leer_observadores ;; ejecutar (k l)
  | Muta obs nuevo k => poner_objeto obs nuevo ;; ejecutar k
  end.

(** [enviar] of the three notifiers (lines 45-46, 51-52, 57-58). *)
Definition enviar (n : INotificacion) (mensaje destino : str) : M unit :=
  match n with
  | EmailNotificacion => print (L_email destino mensaje)
  | SMSNotificacion => print (L_sms destino mensaje)
  | PushNotificacion => print (L_push destino mensaje)
  end.

Section Notificaciones.

(** The lower-casing of the code points from 128 on is the interpreter's
    Unicode table, which is not part of the program: [lower_ucs4 antes c
    despues] is what [str.lower] writes for the non-ASCII code point [c]
    standing between [antes] and [despues] (one to three code points; the
    context matters for the final sigma only). *)
Variable lower_ucs4 : str -> codepoint -> str -> str.

Fixpoint lower_desde (antes s : str) : str :=
  match s with
  | [] => []
  | c :: r =>
      (if is_ascii c then [ascii_lower c] else lower_ucs4 antes c r)
        ++ lower_desde (antes ++ [c]) r
  end.

(** [s.lower()] *)
Definition lower (s : str) : str := lower_desde [] s.

(** ** The factory (lines 65-79) *)

(** [NotificacionFactory.crear_notificacion]; [None] is Python's [None]. *)
Definition crear_notificacion (tipo : str) : option INotificacion :=
  let t := lower (strip tipo) in
  if str_eqb t (lit "email") then Some EmailNotificacion
  else if str_eqb t (lit "sms") then Some SMSNotificacion
  else if str_eqb t (lit "push") then Some PushNotificacion
  else None.

(** ** Usuario.actualizar (lines 140-162) *)

(** Lines 153-160: the destination for one channel entry. *)
Definition destino (u : Usuario) (canal : str) : str :=
  if str_eqb (lower canal) (lit "email") then
    str_or (email u) (lower (nombre u) ++ lit "@example.com")
  else if str_eqb (lower canal) (lit "sms") then
    str_or (telefono u) (lit "0000000000")
  else if str_eqb (lower canal) (lit "push") then
    nombre u
  else
    nombre u.

(** Lines 147-162: the body of the loop for one channel entry. *)
Definition atender_canal (u : Usuario) (mensaje canal : str) : M unit :=
  match crear_notificacion canal with
  | None => print (L_canal_desconocido (nombre u) canal)
  | Some notifier => enviar notifier mensaje (destino u canal)
  end.

Definition Usuario_actualizar (u : Usuario) (mensaje : str) : M unit :=
  print (L_usuario_recibe (nombre u) mensaje) ;;
  for_each (canales_preferidos u) (atender_canal u mensaje).

(** ** Notificacion.notificar_observadores (lines 104-110) *)

(** The dynamic dispatch of [obs.actualizar(mensaje)]. *)
Definition actualizar (ob : observador) (mensaje : str) : M unit :=
  match ob with
  | ObsUsuario u => Usuario_actualizar u mensaje
  | ObsOtro f => ejecutar (f mensaje)
  end.

(** Line 108: the call, on the object that [obs] refers to at that moment. *)
Definition llamar_actualizar (obs : ref) (mensaje : str) : M unit :=
  fun w => actualizar (objetos w obs) mensaje (registrar (Llama obs mensaje) w).

(** Line 110 builds its text before it prints: the f-string calls the
    [__repr__] (through [__str__]) of the observer and the [__str__] of the
    exception, methods of classes that are not part of the program and that
    may raise. [falla_formato w obs e] is the exception that building the text
    for [obs] and [e] raises in the state [w], and [None] when the text is
    built, [detalle e] being then the text of [e]. *)
Variable falla_formato : mundo -> ref -> excepcion -> option excepcion.

(** Line 110, the body of the [except] block. *)
Definition diagnosticar (obs : ref) (e : excepcion) : M unit :=
  fun w =>
    match falla_formato w obs e with
    | Some e' => raise e' w
    | None => print (L_error_notificando obs (detalle e)) w
    end.

(** Lines 106-110, over the copy [list(self._observadores)]. *)
Definition notificar_copia (copia : list ref) (mensaje : str) : M unit :=
  for_each copia (fun obs =>
    try_except_Exception
      (llamar_actualizar obs mensaje)
      (diagnosticar obs)).

Definition notificar_observadores (mensaje : str) : M unit :=
  l <- leer_observadores ;;
  print (L_notificando (List.length l) mensaje) ;;
  copia <- leer_observadores ;;
  notificar_copia copia mensaje.

(** ** What a run writes *)

(** The events a computation adds to the output of [w]. *)
Definition traza {A} (c : M A) (w : mundo) : list evento :=
  skipn (List.length (salida w)) (salida (estado c w)).

Definition escribir (tr : list evento) (w : mundo) : mundo :=
  {| sistema := sistema w; objetos := objetos w; salida := salida w ++ tr |}.

(** The calls of [actualizar] in a trace, in order. *)
Definition llamadas (tr : list evento) : list (ref * str) :=
  flat_map (fun ev => match ev with
                      | Llama obs m => [(obs, m)]
                      | Imprime _ => []
                      end) tr.

(** The line that [enviar] writes. *)
Definition linea_envio (n : INotificacion) (mensaje dest : str) : linea :=
  match n with
  | EmailNotificacion => L_email dest mensaje
  | SMSNotificacion => L_sms dest mensaje
  | PushNotificacion => L_push dest mensaje
  end.

(** The deliveries ([enviar] lines) in a trace, in order. *)
Definition envios (tr : list evento) : list linea :=
  flat_map (fun ev => match ev with
                      | Imprime (L_email d m) => [L_email d m]
                      | Imprime (L_sms d m) => [L_sms d m]
                      | Imprime (L_push d m) => [L_push d m]
                      | _ => []
                      end) tr.

(** The diagnostics of line 110 in a trace, in order. *)
Definition errores (tr : list evento) : list (ref * str) :=
  flat_map (fun ev => match ev with
                      | Imprime (L_error_notificando obs e) => [(obs, e)]
                      | _ => []
                      end) tr.

(** The factory as a table from the normalized identifier to the notifier. *)
Definition registro : list (str * INotificacion) :=
  [(lit "email", EmailNotificacion);
   (lit "sms", SMSNotificacion);
   (lit "push", PushNotificacion)].

Fixpoint buscar (clave : str) (tabla : list (str * INotificacion))
  : option INotificacion :=
  match tabla with
  | [] => None
  | (k, n) :: r => if str_eqb clave k then Some n else buscar clave r
  end.

(** What one entry of the channel list contributes to the output of
    [Usuario.actualizar]. *)
Definition lineas_canal (u : Usuario) (mensaje canal : str) : list linea :=
  match crear_notificacion canal with
  | None => [L_canal_desconocido (nombre u) canal]
  | Some n => [linea_envio n mensaje (destino u canal)]
  end.

(** The delivery that one entry of the channel list causes, if any. *)
Definition envio_canal (u : Usuario) (mensaje canal : str) : list linea :=
  match crear_notificacion canal with
  | None => []
  | Some n => [linea_envio n mensaje (destino u canal)]
  end.

(** The deliveries of one [Usuario] for one message: one per entry that the
    factory resolves, in the order of the list. *)
Definition envios_usuario (u : Usuario) (mensaje : str) : list linea :=
  flat_map (envio_canal u mensaje) (canales_preferidos u).

Definition es_usuario (ob : observador) : bool :=
  match ob with
  | ObsUsuario _ => true
  | ObsOtro _ => false
  end.

Definition envios_observador (ob : observador) (mensaje : str) : list linea :=
  match ob with
  | ObsUsuario u => envios_usuario u mensaje
  | ObsOtro _ => []
  end.

(** Every [raise] that a program can reach, also in the observers it
    installs, raises an instance of [Exception]. *)
Fixpoint solo_Exception (p : programa) : Prop :=
  match p with
  | Retorna => True
  | Lanza e => es_Exception e = true
  | Agrega _ k => solo_Exception k
  | Elimina _ k => solo_Exception k
  | Escribe _ k => solo_Exception k
  | Consulta k => forall l, solo_Exception (k l)
  | Muta _ nuevo k => obs_solo_Exception nuevo /\ solo_Exception k
  end
with obs_solo_Exception (ob : observador) : Prop :=
  match ob with
  | ObsUsuario _ => True
  | ObsOtro f => forall m, solo_Exception (f m)
  end.

Definition mundo_solo_Exception (w : mundo) : Prop :=
  forall obs, obs_solo_Exception (objetos w obs).

(** The states of the subject and its observers that a client can reach:
    from the empty subject, by the three operations of [Notificacion] and by
    changes to the observer objects between the calls. *)
Inductive alcanzable : mundo -> Prop :=
| alc_inicial objs :
    alcanzable {| sistema := Notificacion_init; objetos := objs; salida := [] |}
| alc_agregar w obs :
    alcanzable w -> alcanzable (estado (agregar_observador obs) w)
| alc_eliminar w obs :
    alcanzable w -> alcanzable (estado (eliminar_observador obs) w)
| alc_notificar w mensaje :
    alcanzable w -> alcanzable (estado (notificar_observadores mensaje) w)
| alc_objetos w objs :
    alcanzable w ->
    alcanzable {| sistema := sistema w; objetos := objs; salida := salida w |}.

(** A string with no white space at either end. *)
Definition sin_bordes (x : str) : bool :=
  match x with
  | [] => true
  | a :: _ => negb (isspace a)
  end
  && match rev x with
     | [] => true
     | b :: _ => negb (isspace b)
     end.

(** The list without the first occurrence of [obs]. *)
Definition quitar (obs : ref) (l : list ref) : list ref :=
  match list_remove obs l with
  | Some l' => l'
  | None => l
  end.

(** One run may only add printed lines to the output, and it keeps the
    subscriber list free of repetitions. *)
Definition sigue (w w' : mundo) : Prop :=
  (exists ls, salida w' = salida w ++ map Imprime ls)
  /\ (NoDup (_observadores (sistema w)) -> NoDup (_observadores (sistema w'))).

(** The output only grows. *)
Definition extiende (w w' : mundo) : Prop :=
  exists tr, salida w' = salida w ++ tr.

(** A result that [except Exception] does not let through. *)
Definition atrapable (r : resultado unit) : Prop :=
  match r with
  | Normal _ => True
  | Lanzada e => es_Exception e = true
  end.

(** The lines that the [actualizar] of a [Usuario] writes. *)
Definition lineas_observador (ob : observador) (mensaje : str) : list linea :=
  match ob with
  | ObsUsuario u =>
      L_usuario_recibe (nombre u) mensaje
      :: flat_map (lineas_canal u mensaje) (canales_preferidos u)
  | ObsOtro _ => []
  end.

(** Every reference of [l] is to a [Usuario] object. *)
Definition todos_usuarios (w : mundo) (l : list ref) : bool :=
  forallb (fun obs => es_usuario (objetos w obs)) l.

(** ** Sample objects and states *)

(** A stand-in for the Unicode table that leaves the code points from 128 on
    as they are; the strings below are ASCII, so it is never consulted. *)
Definition sin_tabla : str -> codepoint -> str -> str := fun _ c _ => [c].

Definition alice : Usuario :=
  Usuario_init (lit "Alice") (lit "alice@example.com") (lit "+5215550001111")
    (Some [lit "email"; lit "push"]).

Definition bob : Usuario :=
  Usuario_init (lit "Bob") (lit "bob@example.com") (lit "+5215550002222")
    (Some [lit "sms"]).

Definition diego : Usuario :=
  Usuario_init (lit "Diego") [] [] (Some [lit "push"; lit "telegram"; lit "email"]).

Definition RuntimeError_boom : excepcion :=
  {| es_Exception := true; detalle := lit "boom" |}.


(** An observer that unsubscribes observer 2 and subscribes observer 5
    during its [actualizar]. *)
Definition inquieto : observador :=
  ObsOtro (fun _ => Elimina 2 (Agrega 5 Retorna)).

(** An observer whose [actualizar] raises a [RuntimeError]. *)
Definition averiado : observador :=
  ObsOtro (fun _ => Escribe (lit "antes") (Lanza RuntimeError_boom)).


Definition objetos_mixtos : ref -> observador :=
  fun r => match r with
           | 1 => inquieto
           | 2 => averiado
           | 3 => ObsUsuario bob
           | _ => ObsUsuario diego
           end.

Definition mundo_mixto : mundo :=
  {| sistema := {| _observadores := [1; 2; 3] |};
     objetos := objetos_mixtos;
     salida := [] |}.

Definition objetos_usuarios : ref -> observador :=
  fun r => match r with
           | 1 => ObsUsuario alice
           | 2 => ObsUsuario bob
           | _ => ObsUsuario diego
           end.

Definition mundo_usuarios : mundo :=
  {| sistema := {| _observadores := [1; 2] |};
     objetos := objetos_usuarios;
     salida := [] |}.


(** Reached by subscribing 1, 2, 3 and 1 again, a notification in which
    observer 1 unsubscribes 2 and subscribes 5, and unsubscribing 3. *)
Definition mundo_alcanzado : mundo :=
  estado (eliminar_observador 3)
    (estado (notificar_observadores (lit "X"))
       (estado (agregar_observador 1)
          (estado (agregar_observador 3)
             (estado (agregar_observador 2)
                (estado (agregar_observador 1)
                   {| sistema := Notificacion_init;
                      objetos := objetos_mixtos;
                      salida := [] |}))))).

(** ** The rest of the program *)

(** The unknown-channel lines of line 149 in a trace, in order. *)
Definition avisos (tr : list evento) : list (str * str) :=
  flat_map (fun ev => match ev with
                      | Imprime (L_canal_desconocido n c) => [(n, c)]
                      | _ => []
                      end) tr.

(** The message that a delivery line carries. *)
Definition mensaje_de_envio (l : linea) : option str :=
  match l with
  | L_email _ m => Some m
  | L_sms _ m => Some m
  | L_push _ m => Some m
  | _ => None
  end.

(** The destination rule of lines 153-158, by the notifier it is meant
    for. *)
Definition destino_de (u : Usuario) (n : INotificacion) : str :=
  match n with
  | EmailNotificacion => str_or (email u) (lower (nombre u) ++ lit "@example.com")
  | SMSNotificacion => str_or (telefono u) (lit "0000000000")
  | PushNotificacion => nombre u
  end.

(** [AttributeError], raised by an attribute that the object does not
    have. *)
Definition AttributeError : excepcion :=
  {| es_Exception := true; detalle := lit "canales_preferidos" |}.

(** [obj.canales_preferidos.append(canal)] on the object that [r] refers
    to. *)
Definition append_canal (r : ref) (canal : str) : M unit :=
  fun w =>
    match objetos w r with
    | ObsUsuario u =>
        poner_objeto r
          (ObsUsuario {| nombre := nombre u;
                         email := email u;
                         telefono := telefono u;
                         canales_preferidos := canales_preferidos u ++ [canal] |})
          w
    | ObsOtro _ => raise AttributeError w
    end.

(** The three messages of [main] (lines 185, 189, 193); 243 and 237 are the
    code points of the accented o and i. *)
Definition mensaje_1 : str :=
  lit "Nueva actualizaci" ++ [243%N] ++ lit "n disponible: versi" ++ [243%N]
    ++ lit "n 1.2.0".

Definition mensaje_2 : str :=
  lit "Recordatorio: tu suscripci" ++ [243%N] ++ lit "n vence en 3 d"
    ++ [237%N] ++ lit "as".

Definition mensaje_3 : str := lit "Prueba canal desconocido".

(** The four users of [main] (lines 173-176). *)
Definition main_alice : Usuario :=
  Usuario_init (lit "Alice") (lit "alice@example.com") (lit "+5215550001111")
    (Some [lit "email"; lit "push"]).

Definition main_bob : Usuario :=
  Usuario_init (lit "Bob") (lit "bob@example.com") (lit "+5215550002222")
    (Some [lit "sms"]).

Definition main_carla : Usuario :=
  Usuario_init (lit "Carla") (lit "carla@example.com") (lit "+5215550003333")
    (Some [lit "email"; lit "sms"; lit "push"]).

Definition main_diego : Usuario :=
  Usuario_init (lit "Diego") [] [] (Some [lit "push"]).

(** [main] (lines 169-197). The new subject starts with an empty list; the
    four new objects are stored at the references [ra], [rb], [rc] and [rd]
    that the interpreter gives them; the closing [print] of line 197 is
    recorded as free text. *)
Definition main (ra rb rc rd : ref) : M unit :=
  guardar_observadores [] ;;
  poner_objeto ra (ObsUsuario main_alice) ;;
  poner_objeto rb (ObsUsuario main_bob) ;;
  poner_objeto rc (ObsUsuario main_carla) ;;
  poner_objeto rd (ObsUsuario main_diego) ;;
  agregar_observador ra ;;
  agregar_observador rb ;;
  agregar_observador rc ;;
  agregar_observador rd ;;
  notificar_observadores mensaje_1 ;;
  eliminar_observador rb ;;
  notificar_observadores mensaje_2 ;;
  append_canal rd (lit "telegram") ;;
  notificar_observadores mensaje_3 ;;
  print (L_texto (lit "[Demo] Fin de la simulaci" ++ [243%N] ++ lit "n.")).

(** ** Standard output that may refuse a line *)

(** [print] writes to standard output, which raises when it cannot take the
    text: [UnicodeEncodeError] for a character that its encoding does not
    have (a lone surrogate under UTF-8), [BrokenPipeError] and the like.
    [falla_print w l] is the exception that printing the line [l] raises in
    the state [w], and [None] when the line is written. *)
Variable falla_print : mundo -> linea -> option excepcion.














(** No formatting of a diagnostic raises. *)
Definition sin_fallo : mundo -> ref -> excepcion -> option excepcion :=
  fun _ _ _ => None.

(** The [ValueError] of a [__repr__] that raises. *)
Definition ValueError_repr : excepcion :=
  {| es_Exception := true; detalle := lit "repr" |}.

(** The [__repr__] of observer 2 raises; the other diagnostics are built. *)
Definition repr_de_2_falla : mundo -> ref -> excepcion -> option excepcion :=
  fun _ obs _ => if Nat.eqb obs 2 then Some ValueError_repr else None.








(** ** Strings *)

Lemma str_eqb_eq (a b : str) : str_eqb a b = true <-> a = b.
Proof.
  revert b; induction a as [|x a IH]; intros [|y b]; simpl;
    try (split; [discriminate | discriminate]); try tauto.
  rewrite andb_true_iff, N.eqb_eq, IH.
  split; [intros [-> ->]; reflexivity | intros H; inversion H; auto].
Qed.

Lemma lower_desde_ascii (s antes : str) :
  forallb is_ascii s = true -> lower_desde antes s = map ascii_lower s.
Proof.
  revert antes; induction s as [|c r IH]; intros antes H; simpl in *.
  - reflexivity.
  - apply andb_true_iff in H as [Hc Hr]. rewrite Hc. simpl.
    f_equal. apply IH, Hr.
Qed.

Lemma lower_ascii (s : str) :
  forallb is_ascii s = true -> lower s = map ascii_lower s.
Proof. apply lower_desde_ascii. Qed.

Lemma lstrip_app (pre s : str) :
  forallb isspace pre = true -> lstrip (pre ++ s) = lstrip s.
Proof.
  induction pre as [|c r IH]; simpl; intros H.
  - reflexivity.
  - apply andb_true_iff in H as [Hc Hr]. rewrite Hc. apply IH, Hr.
Qed.

Lemma lstrip_fijo (x : str) :
  match x with [] => true | a :: _ => negb (isspace a) end = true ->
  lstrip x = x.
Proof.
  destruct x as [|a r]; simpl; [reflexivity|].
  intros H. apply negb_true_iff in H. rewrite H. reflexivity.
Qed.

Lemma lstrip_blancos (q : str) :
  forallb isspace q = true -> lstrip q = [].
Proof.
  induction q as [|c q IH]; simpl; intros H; [reflexivity|].
  apply andb_true_iff in H as [Hc Hq]. rewrite Hc. auto.
Qed.

Lemma strip_rodeado (pre x post : str) :
  forallb isspace pre = true -> forallb isspace post = true ->
  sin_bordes x = true ->
  strip (pre ++ x ++ post) = x.
Proof.
  intros Hpre Hpost Hx. apply andb_true_iff in Hx as [Hizq Hder].
  unfold strip, rstrip. rewrite lstrip_app by assumption.
  destruct x as [|a r].
  - simpl. rewrite (lstrip_blancos post) by assumption. reflexivity.
  - assert (E : lstrip ((a :: r) ++ post) = (a :: r) ++ post).
    { simpl. apply negb_true_iff in Hizq. rewrite Hizq. reflexivity. }
    rewrite E, rev_app_distr, lstrip_app.
    + rewrite lstrip_fijo by exact Hder. apply rev_involutive.
    + rewrite forallb_forall in *. intros c Hc. apply Hpost.
      apply in_rev. exact Hc.
Qed.

Lemma isspace_ascii_lower (c : codepoint) :
  isspace (ascii_lower c) = isspace c.
Proof.
  unfold ascii_lower.
  destruct ((65 <=? c) && (c <=? 90))%N eqn:E; [|reflexivity].
  apply andb_true_iff in E as [H1 H2].
  apply N.leb_le in H1. apply N.leb_le in H2.
  unfold isspace.
  repeat match goal with
         | |- context [N.leb ?a ?b] =>
             destruct (N.leb_spec a b); try lia
         | |- context [N.eqb ?a ?b] =>
             destruct (N.eqb_spec a b); try lia
         end; reflexivity.
Qed.

Lemma sin_bordes_lower (x : str) :
  sin_bordes (map ascii_lower x) = sin_bordes x.
Proof.
  unfold sin_bordes. rewrite <- map_rev. f_equal.
  - destruct x; simpl; [reflexivity|]. now rewrite isspace_ascii_lower.
  - destruct (rev x); simpl; [reflexivity|]. now rewrite isspace_ascii_lower.
Qed.

(** ** The factory *)

Lemma buscar_None (clave : str) (tabla : list (str * INotificacion)) :
  buscar clave tabla = None <-> ~ In clave (map fst tabla).
Proof.
  clear lower_ucs4.
  induction tabla as [|[k n] r IH]; simpl.
  - tauto.
  - destruct (str_eqb clave k) eqn:E.
    + apply str_eqb_eq in E. subst k. split; [discriminate|].
      intros H. exfalso. apply H. auto.
    + rewrite IH. split.
      * intros H [H1|H1]; [|tauto].
        subst k. rewrite (proj2 (str_eqb_eq clave clave) eq_refl) in E.
        discriminate.
      * tauto.
Qed.

Lemma buscar_Some (clave : str) (n : INotificacion)
    (tabla : list (str * INotificacion)) :
  NoDup (map fst tabla) ->
  (buscar clave tabla = Some n <-> In (clave, n) tabla).
Proof.
  clear lower_ucs4.
  induction tabla as [|[k n'] r IH]; simpl; intros ND.
  - split; [discriminate | tauto].
  - inversion ND as [|? ? Hk ND']; subst.
    destruct (str_eqb clave k) eqn:E.
    + apply str_eqb_eq in E. subst k. split.
      * intros H; inversion H; auto.
      * intros [H|H]; [inversion H; reflexivity|].
        exfalso. apply Hk. apply (in_map fst) in H. exact H.
    + rewrite (IH ND'). split; [auto|].
      intros [H|H]; [|exact H]. inversion H; subst.
      rewrite (proj2 (str_eqb_eq clave clave) eq_refl) in E. discriminate.
Qed.

Lemma registro_sin_repetir : NoDup (map fst registro).
Proof.
  simpl. repeat constructor; simpl; intros H;
    repeat (destruct H as [H|H]; [discriminate H|]); exact H.
Qed.

Lemma crear_notificacion_buscar (tipo : str) :
  crear_notificacion tipo = buscar (lower (strip tipo)) registro.
Proof. reflexivity. Qed.

(** Whatever white space surrounds an ASCII identifier and whatever the
    case of its letters, the factory sees the lower-cased identifier. *)
Lemma crear_notificacion_insensible (pre x post : str) :
  forallb isspace pre = true -> forallb isspace post = true ->
  forallb is_ascii x = true -> sin_bordes x = true ->
  crear_notificacion (pre ++ x ++ post) = buscar (map ascii_lower x) registro.
Proof.
  intros Hpre Hpost Hx Hb.
  rewrite crear_notificacion_buscar, strip_rodeado by assumption.
  now rewrite lower_ascii.
Qed.

Lemma registro_sin_bordes (clave : str) (n : INotificacion) :
  In (clave, n) registro -> sin_bordes clave = true.
Proof.
  simpl. intros [H|[H|[H|[]]]]; inversion H; reflexivity.
Qed.

(** Every spelling of a registered identifier, in upper or lower case and
    with white space around it, gives the notifier of that identifier. *)
Lemma crear_notificacion_variantes (pre x post clave : str) (n : INotificacion) :
  forallb isspace pre = true -> forallb isspace post = true ->
  forallb is_ascii x = true -> map ascii_lower x = clave ->
  In (clave, n) registro ->
  crear_notificacion (pre ++ x ++ post) = Some n.
Proof.
  intros Hpre Hpost Hx Hl Hin.
  rewrite crear_notificacion_insensible; try assumption.
  - rewrite Hl. apply buscar_Some; [apply registro_sin_repetir | exact Hin].
  - rewrite <- sin_bordes_lower, Hl. eapply registro_sin_bordes, Hin.
Qed.

(** ** Output of a run *)

Lemma escribir_nil (w : mundo) : escribir [] w = w.
Proof. destruct w. unfold escribir. simpl. now rewrite app_nil_r. Qed.

Lemma escribir_app (t1 t2 : list evento) (w : mundo) :
  escribir t2 (escribir t1 w) = escribir (t1 ++ t2) w.
Proof. unfold escribir. simpl. now rewrite app_assoc. Qed.

Lemma skipn_length_app {A} (a b : list A) : skipn (List.length a) (a ++ b) = b.
Proof. induction a; simpl; auto. Qed.

Lemma traza_escribir {A} (c : M A) (w : mundo) (tr : list evento) :
  salida (estado c w) = salida w ++ tr -> traza c w = tr.
Proof. unfold traza. intros ->. apply skipn_length_app. Qed.

Lemma envios_app (a b : list evento) : envios (a ++ b) = envios a ++ envios b.
Proof. apply flat_map_app. Qed.

Lemma llamadas_app (a b : list evento) :
  llamadas (a ++ b) = llamadas a ++ llamadas b.
Proof. apply flat_map_app. Qed.


Lemma llamadas_Imprime (ls : list linea) : llamadas (map Imprime ls) = [].
Proof. induction ls; simpl; auto. Qed.

(** ** Usuario.actualizar *)

Lemma enviar_eq (n : INotificacion) (mensaje dest : str) (w : mundo) :
  enviar n mensaje dest w
  = (Normal tt, escribir [Imprime (linea_envio n mensaje dest)] w).
Proof. destruct n; reflexivity. Qed.

Lemma atender_canal_eq (u : Usuario) (mensaje canal : str) (w : mundo) :
  atender_canal u mensaje canal w
  = (Normal tt, escribir (map Imprime (lineas_canal u mensaje canal)) w).
Proof.
  unfold atender_canal, lineas_canal.
  destruct (crear_notificacion canal); [apply enviar_eq | reflexivity].
Qed.

Lemma for_each_atender (u : Usuario) (mensaje : str) (cs : list str) (w : mundo) :
  for_each cs (atender_canal u mensaje) w
  = (Normal tt,
     escribir (map Imprime (flat_map (lineas_canal u mensaje) cs)) w).
Proof.
  revert w; induction cs as [|c r IH]; intros w; simpl.
  - unfold ret. now rewrite escribir_nil.
  - unfold bind. rewrite atender_canal_eq, IH, escribir_app.
    now rewrite map_app.
Qed.

(** The whole effect of [Usuario.actualizar]: it returns, and it writes its
    heading and then the lines of its channel entries in their order. *)
Lemma Usuario_actualizar_eq (u : Usuario) (mensaje : str) (w : mundo) :
  Usuario_actualizar u mensaje w
  = (Normal tt,
     escribir (map Imprime
                 (L_usuario_recibe (nombre u) mensaje
                  :: flat_map (lineas_canal u mensaje) (canales_preferidos u)))
       w).
Proof.
  unfold Usuario_actualizar, bind, print.
  rewrite for_each_atender. unfold registrar.
  change ({| sistema := sistema w; objetos := objetos w;
             salida := salida w ++ [Imprime (L_usuario_recibe (nombre u) mensaje)] |})
    with (escribir [Imprime (L_usuario_recibe (nombre u) mensaje)] w).
  now rewrite escribir_app.
Qed.

Lemma envios_lineas_canal (u : Usuario) (mensaje canal : str) :
  envios (map Imprime (lineas_canal u mensaje canal))
  = envio_canal u mensaje canal.
Proof.
  unfold lineas_canal, envio_canal.
  destruct (crear_notificacion canal) as [[]|]; reflexivity.
Qed.

Lemma envios_lineas (u : Usuario) (mensaje : str) (cs : list str) :
  envios (map Imprime (flat_map (lineas_canal u mensaje) cs))
  = flat_map (envio_canal u mensaje) cs.
Proof.
  induction cs as [|c r IH]; simpl; [reflexivity|].
  now rewrite map_app, envios_app, envios_lineas_canal, IH.
Qed.


(** When the entry is email up to the case of its letters, the destination
    is the stored address, or the lower-cased name at example.com. *)
Lemma destino_email (u : Usuario) (canal : str) :
  lower canal = lit "email" ->
  destino u canal = str_or (email u) (lower (nombre u) ++ lit "@example.com").
Proof. unfold destino. intros ->. reflexivity. Qed.

(** C3. The factory trims and lower-cases the identifier and then looks it up:
    it returns the Email, SMS or Push notifier when the normalized identifier
    is email, sms or push, and [None] (no exception: the function is total)
    for every other string. EMAIL and email between blanks give the Email
    notifier, telegram gives [None]. *)
Theorem crear_notificacion_correcta :
  (forall tipo,
      crear_notificacion tipo =
        if str_eqb (lower (strip tipo)) (lit "email") then Some EmailNotificacion
        else if str_eqb (lower (strip tipo)) (lit "sms") then Some SMSNotificacion
        else if str_eqb (lower (strip tipo)) (lit "push") then Some PushNotificacion
        else None)
  /\ (forall tipo n, crear_notificacion tipo = Some n <->
                     In (lower (strip tipo), n) registro)
  /\ (forall tipo, crear_notificacion tipo = None <->
                   ~ In (lower (strip tipo)) (map fst registro))
  /\ crear_notificacion (lit "EMAIL") = Some EmailNotificacion
  /\ crear_notificacion (lit " email ") = Some EmailNotificacion
  /\ crear_notificacion (lit "telegram") = None.
Proof.
  split; [reflexivity|].
  split; [|split; [|repeat split; reflexivity]].
  - intros tipo n. rewrite crear_notificacion_buscar.
    apply buscar_Some, registro_sin_repetir.
  - intros tipo. rewrite crear_notificacion_buscar. apply buscar_None.
Qed.

(** C4 (defect of the code). An entry that the factory maps
    to the Email notifier only after trimming, such as email between two
    blanks, gets the subscriber's name as its destination, whether an
    address is stored or not: [destino] compares the lower-cased entry
    without trimming it. *)
Theorem destino_email_sin_strip :
  forall (nom correo tel mensaje : str) (w : mundo),
    let u := Usuario_init nom correo tel (Some [lit " email "]) in
    crear_notificacion (lit " email ") = Some EmailNotificacion
    /\ destino u (lit " email ") = nom
    /\ Usuario_actualizar u mensaje w
       = (Normal tt,
          escribir [Imprime (L_usuario_recibe nom mensaje);
                    Imprime (L_email nom mensaje)] w).
Proof.
  intros. split; [reflexivity|]. split; [reflexivity|].
  rewrite Usuario_actualizar_eq. reflexivity.
Qed.

(** C5. An entry of the channel list that the factory does not resolve makes
    [actualizar] write the unknown-channel line with the subscriber's name and
    that entry, and nothing else for it; [actualizar] returns without an
    exception, and the deliveries are those of the other entries, as if the
    entry were not in the list. *)
Theorem canal_desconocido_no_interrumpe :
  forall (u : Usuario) (mensaje : str) (w : mundo) (antes despues : list str)
         (canal : str),
    canales_preferidos u = antes ++ canal :: despues ->
    crear_notificacion canal = None ->
    Usuario_actualizar u mensaje w
    = (Normal tt,
       escribir
         (map Imprime
            (L_usuario_recibe (nombre u) mensaje
             :: flat_map (lineas_canal u mensaje) antes
             ++ [L_canal_desconocido (nombre u) canal]
             ++ flat_map (lineas_canal u mensaje) despues)) w)
    /\ envios (traza (Usuario_actualizar u mensaje) w)
       = flat_map (envio_canal u mensaje) antes
         ++ flat_map (envio_canal u mensaje) despues.
Proof.
  intros u mensaje w antes despues canal Hc Hn.
  assert (E : flat_map (lineas_canal u mensaje) (canales_preferidos u)
              = flat_map (lineas_canal u mensaje) antes
                ++ [L_canal_desconocido (nombre u) canal]
                ++ flat_map (lineas_canal u mensaje) despues).
  { rewrite Hc, flat_map_app. simpl. unfold lineas_canal at 2.
    rewrite Hn. reflexivity. }
  split.
  - rewrite Usuario_actualizar_eq, E. reflexivity.
  - rewrite (@traza_escribir _ _ _
               (map Imprime
                  (L_usuario_recibe (nombre u) mensaje
                   :: flat_map (lineas_canal u mensaje) (canales_preferidos u)))).
    + simpl. rewrite envios_lineas, Hc, flat_map_app. simpl.
      unfold envio_canal at 2. rewrite Hn. reflexivity.
    + unfold estado. rewrite Usuario_actualizar_eq. reflexivity.
Qed.

(** C9. A [Usuario] built with an empty channel list has the channel list
    of one built with no list, the single entry email; no argument of the
    constructor leaves the list empty; and the [actualizar] of such a
    [Usuario] makes one email delivery. *)
Theorem Usuario_init_lista_vacia :
  forall (nom correo tel : str),
    Usuario_init nom correo tel (Some []) = Usuario_init nom correo tel None
    /\ canales_preferidos (Usuario_init nom correo tel (Some [])) = [lit "email"]
    /\ (forall canales,
           canales_preferidos (Usuario_init nom correo tel canales) <> [])
    /\ forall (mensaje : str) (w : mundo),
         Usuario_actualizar (Usuario_init nom correo tel (Some [])) mensaje w
         = (Normal tt,
            escribir
              [Imprime (L_usuario_recibe nom mensaje);
               Imprime (L_email (str_or correo (lower nom ++ lit "@example.com"))
                          mensaje)] w).
Proof.
  intros. split; [reflexivity|]. split; [reflexivity|]. split.
  - intros [[|c r]|]; discriminate.
  - intros. rewrite Usuario_actualizar_eq. reflexivity.
Qed.

(** ** The subscriber list *)

Lemma en_lista_In (obs : ref) (l : list ref) :
  en_lista obs l = true <-> In obs l.
Proof.
  unfold en_lista. rewrite existsb_exists. split.
  - intros [x [Hx E]]. apply Nat.eqb_eq in E. now subst.
  - intros H. exists obs. split; [exact H | apply Nat.eqb_refl].
Qed.

Lemma list_remove_presente (obs : ref) (l : list ref) :
  In obs l -> exists l', list_remove obs l = Some l'.
Proof.
  induction l as [|x r IH]; simpl; [tauto|].
  intros H. destruct (Nat.eqb x obs) eqn:E; [eauto|].
  destruct H as [H|H]; [subst; rewrite Nat.eqb_refl in E; discriminate|].
  destruct (IH H) as [r' ->]. eauto.
Qed.

Lemma list_remove_In (obs x : ref) (l l' : list ref) :
  list_remove obs l = Some l' -> In x l' -> In x l.
Proof.
  revert l'; induction l as [|y r IH]; simpl; intros l' H Hx; [discriminate|].
  destruct (Nat.eqb y obs).
  - inversion H; subst. auto.
  - destruct (list_remove obs r) as [r'|]; [|discriminate].
    inversion H; subst. destruct Hx as [->|Hx]; [auto|]. right. eapply IH; eauto.
Qed.

Lemma list_remove_NoDup (obs : ref) (l l' : list ref) :
  list_remove obs l = Some l' -> NoDup l -> NoDup l'.
Proof.
  revert l'; induction l as [|y r IH]; simpl; intros l' H ND; [discriminate|].
  inversion ND as [|? ? Hy ND']; subst.
  destruct (Nat.eqb y obs).
  - inversion H; subst. exact ND'.
  - destruct (list_remove obs r) as [r'|] eqn:E; [|discriminate].
    inversion H; subst. constructor; [|eauto].
    intros Hin. apply Hy. eapply list_remove_In; eauto.
Qed.

Lemma agregar_observador_eq (obs : ref) (w : mundo) :
  agregar_observador obs w
  = (Normal tt,
     if en_lista obs (_observadores (sistema w)) then w
     else {| sistema := {| _observadores := _observadores (sistema w) ++ [obs] |};
             objetos := objetos w;
             salida := salida w ++ [Imprime (L_observador_agregado obs)] |}).
Proof.
  unfold agregar_observador, bind, leer_observadores.
  destruct (en_lista obs (_observadores (sistema w))); reflexivity.
Qed.

(** [eliminar_observador] never raises: the test of line 100 keeps
    [list.remove] away from a missing element. *)
Lemma eliminar_observador_eq (obs : ref) (w : mundo) :
  eliminar_observador obs w
  = (Normal tt,
     if en_lista obs (_observadores (sistema w)) then
       {| sistema := {| _observadores := quitar obs (_observadores (sistema w)) |};
          objetos := objetos w;
          salida := salida w ++ [Imprime (L_observador_eliminado obs)] |}
     else w).
Proof.
  unfold eliminar_observador, bind, leer_observadores, quitar.
  destruct (en_lista obs (_observadores (sistema w))) eqn:E; [|reflexivity].
  apply en_lista_In, list_remove_presente in E. destruct E as [l' ->].
  reflexivity.
Qed.

Lemma sigue_refl (w : mundo) : sigue w w.
Proof. split; [exists []; simpl; now rewrite app_nil_r | auto]. Qed.

Lemma sigue_trans (w1 w2 w3 : mundo) : sigue w1 w2 -> sigue w2 w3 -> sigue w1 w3.
Proof.
  intros [[l1 E1] N1] [[l2 E2] N2]. split; [|auto].
  exists (l1 ++ l2). now rewrite E2, E1, map_app, app_assoc.
Qed.

Lemma sigue_agregar (obs : ref) (w : mundo) :
  sigue w (estado (agregar_observador obs) w).
Proof.
  clear falla_print falla_formato.
  unfold estado. rewrite agregar_observador_eq. simpl.
  destruct (en_lista obs (_observadores (sistema w))) eqn:E; [apply sigue_refl|].
  split; simpl.
  - now exists [L_observador_agregado obs].
  - intros ND. apply NoDup_app; [exact ND | repeat constructor; simpl; tauto |].
    intros x Hx [<-|[]]. apply en_lista_In in Hx. congruence.
Qed.

Lemma sigue_eliminar (obs : ref) (w : mundo) :
  sigue w (estado (eliminar_observador obs) w).
Proof.
  unfold estado. rewrite eliminar_observador_eq. simpl.
  destruct (en_lista obs (_observadores (sistema w))) eqn:E; [|apply sigue_refl].
  split; simpl.
  - now exists [L_observador_eliminado obs].
  - intros ND. unfold quitar.
    destruct (list_remove obs (_observadores (sistema w))) eqn:R; [|exact ND].
    eapply list_remove_NoDup; eauto.
Qed.

Lemma sigue_escribir (ls : list linea) (w : mundo) :
  sigue w (escribir (map Imprime ls) w).
Proof. split; [now exists ls | auto]. Qed.

Lemma bind_estado {A B} (c : M A) (f : A -> M B) (w : mundo) (a : A) :
  valor c w = Normal a ->
  bind c f w = f a (estado c w).
Proof.
  unfold bind, valor, estado. destruct (c w) as [[a'|e] w']; simpl; congruence.
Qed.

Arguments bind_estado {A B} c f w a _.

Lemma valor_agregar (obs : ref) (w : mundo) :
  valor (agregar_observador obs) w = Normal tt.
Proof. unfold valor. now rewrite agregar_observador_eq. Qed.

Lemma valor_eliminar (obs : ref) (w : mundo) :
  valor (eliminar_observador obs) w = Normal tt.
Proof. unfold valor. now rewrite eliminar_observador_eq. Qed.

Lemma sigue_ejecutar (p : programa) :
  forall w, sigue w (estado (ejecutar p) w).
Proof.
  induction p as [|e|obs k IH|obs k IH|texto k IH|k IH|obs nuevo k IH];
    intros w; simpl.
  - apply sigue_refl.
  - apply sigue_refl.
  - unfold estado. rewrite (bind_estado _ _ _ _ (valor_agregar obs w)).
    eapply sigue_trans; [apply sigue_agregar | apply IH].
  - unfold estado. rewrite (bind_estado _ _ _ _ (valor_eliminar obs w)).
    eapply sigue_trans; [apply sigue_eliminar | apply IH].
  - unfold estado, bind, print. simpl.
    eapply sigue_trans; [apply (sigue_escribir [L_texto texto]) | apply IH].
  - unfold estado, bind, leer_observadores. apply IH.
  - unfold estado, bind, poner_objeto. simpl.
    eapply sigue_trans; [|apply IH]. split; simpl; [|auto].
    exists []. simpl. now rewrite app_nil_r.
Qed.

Lemma sigue_Usuario_actualizar (u : Usuario) (mensaje : str) (w : mundo) :
  sigue w (estado (Usuario_actualizar u mensaje) w).
Proof.
  unfold estado. rewrite Usuario_actualizar_eq. apply sigue_escribir.
Qed.

Lemma sigue_actualizar (ob : observador) (mensaje : str) (w : mundo) :
  sigue w (estado (actualizar ob mensaje) w).
Proof.
  destruct ob; [apply sigue_Usuario_actualizar | apply sigue_ejecutar].
Qed.

(** The subscriber list stays free of repetitions through a notification,
    however it ends. *)
Lemma notificar_copia_NoDup (copia : list ref) (mensaje : str) :
  forall w, NoDup (_observadores (sistema w)) ->
            NoDup (_observadores (sistema (estado (notificar_copia copia mensaje) w))).
Proof.
  induction copia as [|obs r IH]; intros w ND; [exact ND|].
  unfold notificar_copia in *. simpl. unfold estado, bind at 1.
  unfold try_except_Exception, llamar_actualizar.
  pose proof (sigue_actualizar (objetos w obs) mensaje
                (registrar (Llama obs mensaje) w)) as [_ S].
  unfold estado in S.
  destruct (actualizar (objetos w obs) mensaje (registrar (Llama obs mensaje) w))
    as [[[]|e] w1]; simpl in S.
  - apply IH. apply S. exact ND.
  - destruct (es_Exception e); simpl; [|apply S; exact ND].
    unfold diagnosticar. destruct (falla_formato w1 obs e); simpl.
    + apply S. exact ND.
    + apply IH. simpl. apply S. exact ND.
Qed.

(** ** notificar_observadores *)

Lemma notificar_observadores_eq (mensaje : str) (w : mundo) :
  notificar_observadores mensaje w
  = notificar_copia (_observadores (sistema w)) mensaje
      (registrar
         (Imprime (L_notificando (List.length (_observadores (sistema w)))
                     mensaje)) w).
Proof. reflexivity. Qed.


(** One turn of the loop of lines 106-110. *)
Lemma notificar_copia_cons (obs : ref) (r : list ref) (mensaje : str) (w : mundo) :
  notificar_copia (obs :: r) mensaje w
  = match llamar_actualizar obs mensaje w with
    | (Normal _, w1) => notificar_copia r mensaje w1
    | (Lanzada e, w1) =>
        if es_Exception e then
          match falla_formato w1 obs e with
          | Some e' => (Lanzada e', w1)
          | None =>
              notificar_copia r mensaje
                (registrar (Imprime (L_error_notificando obs (detalle e))) w1)
          end
        else (Lanzada e, w1)
    end.
Proof.
  unfold notificar_copia. simpl.
  unfold bind at 1, try_except_Exception, diagnosticar.
  destruct (llamar_actualizar obs mensaje w) as [[[]|e] w1]; [reflexivity|].
  destruct (es_Exception e); [|reflexivity].
  destruct (falla_formato w1 obs e); reflexivity.
Qed.

Lemma extiende_refl (w : mundo) : extiende w w.
Proof. exists []. now rewrite app_nil_r. Qed.

Lemma extiende_trans (w1 w2 w3 : mundo) :
  extiende w1 w2 -> extiende w2 w3 -> extiende w1 w3.
Proof.
  intros [t1 E1] [t2 E2]. exists (t1 ++ t2). now rewrite E2, E1, app_assoc.
Qed.

Lemma extiende_registrar (ev : evento) (w : mundo) : extiende w (registrar ev w).
Proof. now exists [ev]. Qed.

Lemma sigue_extiende (w w' : mundo) : sigue w w' -> extiende w w'.
Proof. intros [[ls E] _]. now exists (map Imprime ls). Qed.

Lemma extiende_llamar_actualizar (obs : ref) (mensaje : str) (w : mundo) :
  extiende w (estado (llamar_actualizar obs mensaje) w).
Proof.
  unfold llamar_actualizar, estado.
  eapply extiende_trans; [apply (extiende_registrar (Llama obs mensaje))|].
  apply sigue_extiende, sigue_actualizar.
Qed.

Lemma extiende_notificar_copia (copia : list ref) (mensaje : str) :
  forall w, extiende w (estado (notificar_copia copia mensaje) w).
Proof.
  induction copia as [|obs r IH]; intros w; [apply extiende_refl|].
  unfold estado in *. rewrite notificar_copia_cons.
  pose proof (extiende_llamar_actualizar obs mensaje w) as X.
  unfold estado in X.
  destruct (llamar_actualizar obs mensaje w) as [[[]|e] w1]; simpl in X.
  - eapply extiende_trans; [exact X | apply IH].
  - destruct (es_Exception e); simpl; [|exact X].
    destruct (falla_formato w1 obs e); simpl; [exact X|].
    eapply extiende_trans; [exact X|].
    eapply extiende_trans; [apply extiende_registrar | apply IH].
Qed.



(** *** Observers that raise instances of [Exception] only *)

Lemma objetos_agregar (obs : ref) (w : mundo) :
  objetos (estado (agregar_observador obs) w) = objetos w.
Proof.
  unfold estado. rewrite agregar_observador_eq. simpl.
  now destruct (en_lista obs (_observadores (sistema w))).
Qed.

Lemma objetos_eliminar (obs : ref) (w : mundo) :
  objetos (estado (eliminar_observador obs) w) = objetos w.
Proof.
  unfold estado. rewrite eliminar_observador_eq. simpl.
  now destruct (en_lista obs (_observadores (sistema w))).
Qed.

Lemma mundo_solo_Exception_objetos (w w' : mundo) :
  objetos w' = objetos w -> mundo_solo_Exception w -> mundo_solo_Exception w'.
Proof. unfold mundo_solo_Exception. intros ->. auto. Qed.

Lemma ejecutar_solo_Exception (p : programa) :
  forall w, solo_Exception p -> mundo_solo_Exception w ->
            mundo_solo_Exception (estado (ejecutar p) w)
            /\ atrapable (valor (ejecutar p) w).
Proof.
  induction p as [|e|obs k IH|obs k IH|texto k IH|k IH|obs nuevo k IH];
    intros w Hp Hw; simpl in Hp |- *.
  - split; [exact Hw | exact I].
  - split; [exact Hw | exact Hp].
  - unfold estado, valor. rewrite (bind_estado _ _ _ _ (valor_agregar obs w)).
    apply IH; [exact Hp|].
    eapply mundo_solo_Exception_objetos; [apply objetos_agregar | exact Hw].
  - unfold estado, valor. rewrite (bind_estado _ _ _ _ (valor_eliminar obs w)).
    apply IH; [exact Hp|].
    eapply mundo_solo_Exception_objetos; [apply objetos_eliminar | exact Hw].
  - apply (IH (registrar (Imprime (L_texto texto)) w) Hp Hw).
  - apply (IH (_observadores (sistema w)) w (Hp _) Hw).
  - destruct Hp as [Hn Hk].
    apply (IH (estado (poner_objeto obs nuevo) w) Hk).
    intros r. simpl. destruct (Nat.eqb r obs); [exact Hn | apply Hw].
Qed.

Lemma actualizar_solo_Exception (ob : observador) (mensaje : str) (w : mundo) :
  obs_solo_Exception ob -> mundo_solo_Exception w ->
  mundo_solo_Exception (estado (actualizar ob mensaje) w)
  /\ atrapable (valor (actualizar ob mensaje) w).
Proof.
  destruct ob as [u|f]; simpl; intros Ho Hw.
  - unfold estado, valor. rewrite Usuario_actualizar_eq. simpl.
    split; [exact Hw | exact I].
  - apply ejecutar_solo_Exception; auto.
Qed.

(** When building the diagnostic never raises and the observers raise
    instances of [Exception] only, the loop returns. *)
Lemma notificar_copia_solo_Exception (copia : list ref) (mensaje : str) :
  (forall w obs e, falla_formato w obs e = None) ->
  forall w, mundo_solo_Exception w ->
    valor (notificar_copia copia mensaje) w = Normal tt
    /\ mundo_solo_Exception (estado (notificar_copia copia mensaje) w).
Proof.
  intros Hf. induction copia as [|obs r IH]; intros w Hw.
  - split; [reflexivity | exact Hw].
  - unfold valor, estado in *. rewrite notificar_copia_cons.
    unfold llamar_actualizar.
    set (w0 := registrar (Llama obs mensaje) w).
    destruct (actualizar_solo_Exception (objetos w obs) mensaje (w := w0)
                (Hw obs) Hw) as [Hw1 Hr].
    unfold estado, valor in Hw1, Hr.
    destruct (actualizar (objetos w obs) mensaje w0) as [[[]|e] w1];
      simpl in Hw1, Hr.
    + apply IH, Hw1.
    + rewrite Hr, Hf. apply IH. exact Hw1.
Qed.

(** *** The calls of one notification, whatever the observers raise *)

Lemma notificar_copia_no_captura (obs : ref) (r : list ref) (mensaje : str)
    (w w1 : mundo) (e : excepcion) :
  llamar_actualizar obs mensaje w = (Lanzada e, w1) ->
  es_Exception e = false ->
  notificar_copia (obs :: r) mensaje w = (Lanzada e, w1).
Proof.
  intros H He. rewrite notificar_copia_cons, H, He. reflexivity.
Qed.

(** A caught exception whose diagnostic cannot be built: what building it
    raises leaves the loop, and the observers that follow are not called. *)
Lemma notificar_copia_formato_falla (obs : ref) (r : list ref) (mensaje : str)
    (w w1 : mundo) (e e' : excepcion) :
  llamar_actualizar obs mensaje w = (Lanzada e, w1) ->
  es_Exception e = true ->
  falla_formato w1 obs e = Some e' ->
  notificar_copia (obs :: r) mensaje w = (Lanzada e', w1).
Proof.
  intros H He Hf. rewrite notificar_copia_cons, H, He, Hf. reflexivity.
Qed.

Lemma llamar_actualizar_traza (obs : ref) (mensaje : str) (w : mundo) :
  exists ls, salida (estado (llamar_actualizar obs mensaje) w)
             = salida w ++ Llama obs mensaje :: map Imprime ls.
Proof.
  unfold llamar_actualizar, estado.
  destruct (sigue_actualizar (objetos w obs) mensaje
              (registrar (Llama obs mensaje) w)) as [[ls E] _].
  exists ls. unfold estado in E. rewrite E. simpl.
  rewrite <- app_assoc. reflexivity.
Qed.

(** Why and where a notification ends: the observers called are those of
    the copy, in order, up to the end of the copy or up to the first one
    whose [actualizar] raises something that is not an instance of
    [Exception] or whose diagnostic cannot be built. *)
Lemma notificar_copia_llamadas (copia : list ref) (mensaje : str) :
  forall w, exists tr,
    salida (estado (notificar_copia copia mensaje) w) = salida w ++ tr
    /\ match valor (notificar_copia copia mensaje) w with
       | Normal _ => llamadas tr = map (fun obs => (obs, mensaje)) copia
       | Lanzada e =>
           exists antes obs despues w1 w2 e0,
             copia = antes ++ obs :: despues
             /\ llamadas tr = map (fun o => (o, mensaje)) (antes ++ [obs])
             /\ notificar_copia antes mensaje w = (Normal tt, w1)
             /\ llamar_actualizar obs mensaje w1 = (Lanzada e0, w2)
             /\ (es_Exception e0 = false /\ e = e0
                 \/ es_Exception e0 = true /\ falla_formato w2 obs e0 = Some e)
       end.
Proof.
  induction copia as [|obs r IH]; intros w.
  - exists []. split; [simpl; now rewrite app_nil_r | reflexivity].
  - unfold valor, estado in *. rewrite notificar_copia_cons.
    destruct (llamar_actualizar_traza obs mensaje w) as [ls Hs].
    unfold estado in Hs.
    destruct (llamar_actualizar obs mensaje w) as [[[]|e] w1] eqn:E;
      simpl in Hs.
    + destruct (IH w1) as [tr [Ht Hl]].
      exists (Llama obs mensaje :: map Imprime ls ++ tr). split.
      * rewrite Ht, Hs. rewrite <- app_assoc. reflexivity.
      * destruct (fst (notificar_copia r mensaje w1)) as [[]|e'].
        -- simpl. rewrite llamadas_app, llamadas_Imprime, Hl. reflexivity.
        -- destruct Hl as [antes [o [despues [u1 [u2 [e0 [Hc [Hl [Ha Hb]]]]]]]]].
           exists (obs :: antes), o, despues, u1, u2, e0.
           split; [now rewrite Hc|]. split.
           { simpl. rewrite llamadas_app, llamadas_Imprime, Hl. reflexivity. }
           split; [|exact Hb].
           rewrite notificar_copia_cons, E. exact Ha.
    + destruct (es_Exception e) eqn:He.
      * destruct (falla_formato w1 obs e) as [e'|] eqn:Hf.
        -- exists (Llama obs mensaje :: map Imprime ls). simpl.
           split; [exact Hs|].
           exists [], obs, r, w, w1, e. split; [reflexivity|]. split.
           { simpl. now rewrite llamadas_Imprime. }
           split; [reflexivity|]. split; [exact E|]. right. auto.
        -- set (w2 := registrar
                        (Imprime (L_error_notificando obs (detalle e))) w1).
           destruct (IH w2) as [tr [Ht Hl]].
           exists (Llama obs mensaje
                   :: map Imprime (ls ++ [L_error_notificando obs (detalle e)])
                   ++ tr).
           split.
           ++ rewrite Ht. subst w2. simpl. rewrite Hs, map_app. simpl.
              rewrite <- !app_assoc. reflexivity.
           ++ destruct (fst (notificar_copia r mensaje w2)) as [[]|e'].
              ** simpl. rewrite llamadas_app, llamadas_Imprime, Hl.
                 reflexivity.
              ** destruct Hl
                   as [antes [o [despues [u1 [u2 [e0 [Hc [Hl [Ha Hb]]]]]]]]].
                 exists (obs :: antes), o, despues, u1, u2, e0.
                 split; [now rewrite Hc|]. split.
                 { simpl. rewrite llamadas_app, llamadas_Imprime, Hl.
                   reflexivity. }
                 split; [|exact Hb].
                 rewrite notificar_copia_cons, E, He, Hf. exact Ha.
      * exists (Llama obs mensaje :: map Imprime ls). simpl.
        split; [exact Hs|].
        exists [], obs, r, w, w1, e. split; [reflexivity|]. split.
        { simpl. now rewrite llamadas_Imprime. }
        split; [reflexivity|]. split; [exact E|]. left. auto.
Qed.



(** A sufficient condition for a notification to return: the observers
    raise instances of [Exception] only and building the diagnostic never
    raises. *)
Lemma notificar_observadores_solo_Exception (mensaje : str) (w : mundo) :
  (forall w' obs e, falla_formato w' obs e = None) ->
  mundo_solo_Exception w ->
  valor (notificar_observadores mensaje) w = Normal tt.
Proof.
  intros Hf Hw. unfold valor. rewrite notificar_observadores_eq.
  apply (notificar_copia_solo_Exception _ mensaje Hf). exact Hw.
Qed.

(** *** Subscribers that are all [Usuario] objects *)

Lemma notificar_copia_usuarios (copia : list ref) (mensaje : str) :
  forall w, todos_usuarios w copia = true ->
    notificar_copia copia mensaje w
    = (Normal tt,
       escribir
         (flat_map (fun obs =>
                      Llama obs mensaje
                      :: map Imprime (lineas_observador (objetos w obs) mensaje))
            copia) w).
Proof.
  induction copia as [|obs r IH]; intros w H.
  - unfold notificar_copia. simpl. unfold ret. now rewrite escribir_nil.
  - simpl in H. apply andb_true_iff in H as [Ho Hr].
    rewrite notificar_copia_cons. unfold llamar_actualizar.
    destruct (objetos w obs) as [u|f] eqn:E; [|discriminate]. simpl actualizar.
    rewrite Usuario_actualizar_eq, IH by exact Hr.
    change (registrar (Llama obs mensaje) w) with (escribir [Llama obs mensaje] w).
    rewrite !escribir_app. simpl. rewrite E. reflexivity.
Qed.

Lemma envios_observadores (objs : ref -> observador) (mensaje : str)
    (l : list ref) :
  envios (flat_map (fun obs =>
                      Llama obs mensaje
                      :: map Imprime (lineas_observador (objs obs) mensaje)) l)
  = flat_map (fun obs => envios_observador (objs obs) mensaje) l.
Proof.
  induction l as [|obs r IH]; simpl; [reflexivity|].
  rewrite envios_app, IH. f_equal.
  destruct (objs obs) as [u|f]; simpl; [|reflexivity].
  apply envios_lineas.
Qed.


Lemma notificar_observadores_usuarios (mensaje : str) (w : mundo) :
  todos_usuarios w (_observadores (sistema w)) = true ->
  notificar_observadores mensaje w
  = (Normal tt,
     escribir
       (Imprime (L_notificando (List.length (_observadores (sistema w))) mensaje)
        :: flat_map (fun obs =>
                       Llama obs mensaje
                       :: map Imprime (lineas_observador (objetos w obs) mensaje))
             (_observadores (sistema w))) w).
Proof.
  intros H. rewrite notificar_observadores_eq.
  rewrite notificar_copia_usuarios by exact H.
  change (registrar ?ev w) with (escribir [ev] w).
  rewrite escribir_app. reflexivity.
Qed.

(** C6. Adding an observer a second time changes nothing: the list, and so
    its length, stays as the first call left it and no line is printed. The
    first call appends the observer and prints its line exactly when the
    observer was not in the list. *)
Theorem agregar_observador_idempotente :
  forall (obs : ref) (w : mundo),
    let w1 := estado (agregar_observador obs) w in
    agregar_observador obs w1 = (Normal tt, w1)
    /\ List.length (_observadores (sistema (estado (agregar_observador obs) w1)))
       = List.length (_observadores (sistema w1))
    /\ traza (agregar_observador obs) w1 = []
    /\ w1 = (if en_lista obs (_observadores (sistema w)) then w
             else {| sistema :=
                       {| _observadores := _observadores (sistema w) ++ [obs] |};
                     objetos := objetos w;
                     salida := salida w ++ [Imprime (L_observador_agregado obs)] |}).
Proof.
  intros obs w w1.
  assert (E : agregar_observador obs w1 = (Normal tt, w1)).
  { rewrite agregar_observador_eq.
    replace (en_lista obs (_observadores (sistema w1))) with true; [reflexivity|].
    symmetry. subst w1. unfold estado. rewrite agregar_observador_eq. simpl.
    destruct (en_lista obs (_observadores (sistema w))) eqn:H; [exact H|].
    simpl. apply en_lista_In, in_or_app. right. simpl. auto. }
  split; [exact E|]. unfold traza, estado. rewrite E. simpl.
  split; [reflexivity|]. split; [apply skipn_all|].
  subst w1. unfold estado. now rewrite agregar_observador_eq.
Qed.

(** C7. The subscriber list has no repeated entry in any state reached from
    the empty subject by [agregar_observador], [eliminar_observador] and
    [notificar_observadores], the observers being free to subscribe and
    unsubscribe observers during their [actualizar]. *)
Theorem observadores_sin_repetir :
  forall w : mundo, alcanzable w -> NoDup (_observadores (sistema w)).
Proof.
  induction 1 as [objs|w obs _ IH|w obs _ IH|w mensaje _ IH|w objs _ IH]; simpl.
  - constructor.
  - apply (sigue_agregar obs w), IH.
  - apply (sigue_eliminar obs w), IH.
  - unfold notificar_observadores, estado, bind, leer_observadores, print.
    simpl.
    apply (notificar_copia_NoDup (_observadores (sistema w)) mensaje
             (registrar
                (Imprime (L_notificando
                            (List.length (_observadores (sistema w))) mensaje)) w)).
    exact IH.
  - exact IH.
Qed.



(** C8. When the subscribers are [Usuario] objects, the deliveries of one
    [notificar_observadores], in the order they are made, are the deliveries
    of the first subscribed observer, then those of the second, and so on;
    those of one observer are one per entry of its channel list that the
    factory resolves, repeated entries included, in the order of the list. *)
Theorem envios_en_orden :
  forall (w : mundo) (mensaje : str),
    todos_usuarios w (_observadores (sistema w)) = true ->
    envios (traza (notificar_observadores mensaje) w)
    = flat_map (fun obs => envios_observador (objetos w obs) mensaje)
        (_observadores (sistema w))
    /\ forall u, envios_observador (ObsUsuario u) mensaje
                 = flat_map (envio_canal u mensaje) (canales_preferidos u).
Proof.
  intros w mensaje H. split; [|reflexivity].
  rewrite (@traza_escribir _ _ _
             (Imprime (L_notificando
                         (List.length (_observadores (sistema w))) mensaje)
              :: flat_map (fun obs =>
                   Llama obs mensaje
                   :: map Imprime (lineas_observador (objetos w obs) mensaje))
                   (_observadores (sistema w)))).
  - simpl. apply envios_observadores.
  - unfold estado. rewrite notificar_observadores_usuarios by exact H.
    reflexivity.
Qed.

(** *** Usuario.actualizar on a standard output that may refuse a line *)









(** ** Further properties: eliminar_observador and the subscriber list *)

Lemma list_remove_partes (obs : ref) (l l' : list ref) :
  list_remove obs l = Some l' ->
  exists antes despues,
    l = antes ++ obs :: despues /\ ~ In obs antes /\ l' = antes ++ despues.
Proof.
  revert l'; induction l as [|x r IH]; simpl; intros l' H; [discriminate|].
  destruct (Nat.eqb x obs) eqn:E.
  - apply Nat.eqb_eq in E. subst x. inversion H; subst.
    exists [], l'. simpl. auto.
  - destruct (list_remove obs r) as [r'|]; [|discriminate].
    inversion H; subst.
    destruct (IH r' eq_refl) as [antes [despues [H1 [H2 H3]]]].
    exists (x :: antes), despues. simpl. rewrite H1, H3.
    split; [reflexivity|]. split; [|reflexivity].
    intros [Hx|Hx]; [|contradiction].
    subst x. rewrite Nat.eqb_refl in E. discriminate.
Qed.

Lemma en_lista_quitar (o obs : ref) (l : list ref) :
  NoDup l ->
  en_lista o (quitar obs l) = negb (Nat.eqb o obs) && en_lista o l.
Proof.
  intros ND. unfold quitar.
  destruct (list_remove obs l) as [l'|] eqn:E.
  - destruct (list_remove_partes _ _ E) as [antes [despues [H1 [H2 H3]]]].
    subst l l'. pose proof (NoDup_remove_2 _ _ _ ND) as Hn.
    destruct (Nat.eqb o obs) eqn:Eo; simpl.
    + apply Nat.eqb_eq in Eo. subst o.
      destruct (en_lista obs (antes ++ despues)) eqn:X; [|reflexivity].
      apply en_lista_In in X. contradiction.
    + unfold en_lista. rewrite !existsb_app. simpl. rewrite Eo. reflexivity.
  - destruct (Nat.eqb o obs) eqn:Eo; simpl; [|reflexivity].
    apply Nat.eqb_eq in Eo. subst o.
    destruct (en_lista obs l) eqn:X; [|reflexivity].
    apply en_lista_In, list_remove_presente in X. destruct X as [l' X].
    congruence.
Qed.

(** X1. Removing an observer that is not subscribed changes nothing, prints
    nothing and raises nothing. *)
Theorem eliminar_observador_ausente :
  forall (obs : ref) (w : mundo),
    en_lista obs (_observadores (sistema w)) = false ->
    eliminar_observador obs w = (Normal tt, w).
Proof.
  intros obs w H. rewrite eliminar_observador_eq, H. reflexivity.
Qed.

(** X2. Removing a subscribed observer takes its first occurrence out of the
    list, leaves the other entries in their order, prints the removal line
    and raises nothing. *)
Theorem eliminar_observador_presente :
  forall (obs : ref) (w : mundo),
    en_lista obs (_observadores (sistema w)) = true ->
    exists antes despues,
      _observadores (sistema w) = antes ++ obs :: despues
      /\ ~ In obs antes
      /\ eliminar_observador obs w
         = (Normal tt,
            {| sistema := {| _observadores := antes ++ despues |};
               objetos := objetos w;
               salida := salida w ++ [Imprime (L_observador_eliminado obs)] |}).
Proof.
  intros obs w H. rewrite eliminar_observador_eq, H. unfold quitar.
  pose proof H as Hin. apply en_lista_In, list_remove_presente in Hin.
  destruct Hin as [l' E]. rewrite E.
  destruct (list_remove_partes _ _ E) as [antes [despues [H1 [H2 H3]]]].
  exists antes, despues. subst l'. auto.
Qed.

(** X3. On a list without repetitions, removing an observer a second time
    changes nothing and prints nothing. *)
Theorem eliminar_observador_idempotente :
  forall (obs : ref) (w : mundo),
    NoDup (_observadores (sistema w)) ->
    eliminar_observador obs (estado (eliminar_observador obs) w)
    = (Normal tt, estado (eliminar_observador obs) w).
Proof.
  intros obs w ND. unfold estado at 1 2.
  rewrite (eliminar_observador_eq obs w). simpl.
  destruct (en_lista obs (_observadores (sistema w))) eqn:E.
  - rewrite eliminar_observador_eq. simpl.
    rewrite en_lista_quitar by exact ND. rewrite Nat.eqb_refl. reflexivity.
  - rewrite eliminar_observador_eq, E. reflexivity.
Qed.

(** X4. Subscribing an observer that was not subscribed and removing it
    again gives back the subscriber list; the two lines are printed. *)
Theorem agregar_eliminar_restaura :
  forall (obs : ref) (w : mundo),
    en_lista obs (_observadores (sistema w)) = false ->
    (agregar_observador obs ;; eliminar_observador obs) w
    = (Normal tt,
       {| sistema := {| _observadores := _observadores (sistema w) |};
          objetos := objetos w;
          salida := salida w ++ [Imprime (L_observador_agregado obs);
                                 Imprime (L_observador_eliminado obs)] |}).
Proof.
  intros obs w H. unfold bind at 1.
  rewrite agregar_observador_eq, H, eliminar_observador_eq. simpl.
  assert (Hin : en_lista obs (_observadores (sistema w) ++ [obs]) = true).
  { apply en_lista_In, in_or_app. right. simpl. auto. }
  rewrite Hin. unfold quitar.
  assert (R : forall l, en_lista obs l = false ->
                        list_remove obs (l ++ [obs]) = Some l).
  { induction l as [|x r IH]; simpl; intros Hl.
    - now rewrite Nat.eqb_refl.
    - apply orb_false_iff in Hl as [Hx Hr].
      rewrite Nat.eqb_sym, Hx, (IH Hr). reflexivity. }
  rewrite (R _ H), <- app_assoc. reflexivity.
Qed.

(** X5. After [agregar_observador] the observer is subscribed and the
    membership of every other observer is as before. *)
Theorem agregar_observador_pertenencia :
  forall (obs o : ref) (w : mundo),
    en_lista o (_observadores (sistema (estado (agregar_observador obs) w)))
    = Nat.eqb o obs || en_lista o (_observadores (sistema w)).
Proof.
  intros obs o w. unfold estado. rewrite agregar_observador_eq. simpl.
  destruct (en_lista obs (_observadores (sistema w))) eqn:E; simpl.
  - destruct (Nat.eqb o obs) eqn:Eo; [|reflexivity].
    apply Nat.eqb_eq in Eo. subst o. exact E.
  - unfold en_lista. rewrite existsb_app. simpl.
    rewrite orb_false_r. apply orb_comm.
Qed.

(** X6. On a list without repetitions, after [eliminar_observador] the
    observer is not subscribed and the membership of every other observer is
    as before. *)
Theorem eliminar_observador_pertenencia :
  forall (obs o : ref) (w : mundo),
    NoDup (_observadores (sistema w)) ->
    en_lista o (_observadores (sistema (estado (eliminar_observador obs) w)))
    = negb (Nat.eqb o obs) && en_lista o (_observadores (sistema w)).
Proof.
  intros obs o w ND. unfold estado. rewrite eliminar_observador_eq. simpl.
  destruct (en_lista obs (_observadores (sistema w))) eqn:E; simpl.
  - apply en_lista_quitar, ND.
  - destruct (Nat.eqb o obs) eqn:Eo; [|reflexivity].
    apply Nat.eqb_eq in Eo. subst o. exact E.
Qed.

(** X17. Removing a subscribed observer and subscribing it again, on a
    list without repetitions, moves it to the end of the list: it will be the
    last to be notified, and the others keep their order. *)
Theorem resuscribir_pasa_al_final :
  forall (obs : ref) (w : mundo),
    NoDup (_observadores (sistema w)) ->
    en_lista obs (_observadores (sistema w)) = true ->
    exists antes despues,
      _observadores (sistema w) = antes ++ obs :: despues
      /\ valor (eliminar_observador obs ;; agregar_observador obs) w = Normal tt
      /\ _observadores
           (sistema (estado (eliminar_observador obs ;; agregar_observador obs) w))
         = antes ++ despues ++ [obs].
Proof.
  intros obs w ND H.
  pose proof H as Hin. apply en_lista_In, list_remove_presente in Hin.
  destruct Hin as [l' E].
  destruct (list_remove_partes _ _ E) as [antes [despues [H1 [H2 H3]]]].
  exists antes, despues. split; [exact H1|].
  assert (Hq : quitar obs (_observadores (sistema w)) = antes ++ despues).
  { unfold quitar. rewrite E. exact H3. }
  assert (Hn : en_lista obs (antes ++ despues) = false).
  { rewrite <- Hq, en_lista_quitar by exact ND.
    rewrite Nat.eqb_refl. reflexivity. }
  unfold valor, estado, bind.
  rewrite eliminar_observador_eq, H, agregar_observador_eq. simpl.
  rewrite Hq, Hn. simpl. rewrite <- app_assoc. auto.
Qed.

(** ** Further properties: who is called *)

Lemma llamadas_en_copia (copia : list ref) (mensaje : str) (w : mundo)
    (o : ref) (m : str) :
  In (o, m) (llamadas (traza (notificar_copia copia mensaje) w)) ->
  In o copia /\ m = mensaje.
Proof.
  destruct (notificar_copia_llamadas copia mensaje w) as [tr [Ht Hl]].
  rewrite (@traza_escribir _ _ _ tr Ht).
  destruct (valor (notificar_copia copia mensaje) w) as [[]|e].
  - rewrite Hl, in_map_iff. intros [x [E Hx]]. inversion E; subst. auto.
  - destruct Hl as [antes [obs [despues [u1 [u2 [e0 [Hc [Hl _]]]]]]]].
    rewrite Hl, in_map_iff. intros [x [E Hx]]. inversion E; subst.
    split; [|reflexivity].
    apply in_app_or in Hx. apply in_or_app.
    destruct Hx as [Hx|[<-|[]]]; [left; exact Hx | right; left; reflexivity].
Qed.

Lemma llamadas_en_suscritos (mensaje : str) (w : mundo) (o : ref) (m : str) :
  In (o, m) (llamadas (traza (notificar_observadores mensaje) w)) ->
  In o (_observadores (sistema w)) /\ m = mensaje.
Proof.
  set (cab := Imprime (L_notificando (List.length (_observadores (sistema w)))
                         mensaje)).
  destruct (extiende_notificar_copia (_observadores (sistema w)) mensaje
              (registrar cab w)) as [tr Ht].
  assert (E1 : traza (notificar_observadores mensaje) w = cab :: tr).
  { apply traza_escribir. unfold estado in *.
    rewrite notificar_observadores_eq. fold cab. rewrite Ht. simpl.
    rewrite <- app_assoc. reflexivity. }
  assert (E2 : traza (notificar_copia (_observadores (sistema w)) mensaje)
                 (registrar cab w) = tr).
  { apply traza_escribir. exact Ht. }
  rewrite E1. simpl. rewrite <- E2. apply llamadas_en_copia.
Qed.

(** X7. Whatever the observers do and however the notification ends,
    [notificar_observadores] calls [actualizar] only on observers that were
    subscribed when it began (so not on one subscribed during the
    notification) and only with its own message. *)
Theorem notificar_observadores_solo_suscritos :
  forall (mensaje m : str) (w : mundo) (o : ref),
    In (o, m) (llamadas (traza (notificar_observadores mensaje) w)) ->
    en_lista o (_observadores (sistema w)) = true /\ m = mensaje.
Proof.
  intros mensaje m w o H. apply llamadas_en_suscritos in H as [H1 H2].
  split; [apply en_lista_In, H1 | exact H2].
Qed.

(** X8. On a list without repetitions, an observer that has been removed is
    not called by the next notification. *)
Theorem eliminado_no_es_llamado :
  forall (obs : ref) (mensaje m : str) (w : mundo),
    NoDup (_observadores (sistema w)) ->
    ~ In (obs, m)
        (llamadas (traza (notificar_observadores mensaje)
                     (estado (eliminar_observador obs) w))).
Proof.
  intros obs mensaje m w ND H. apply llamadas_en_suscritos in H as [H _].
  apply en_lista_In in H.
  unfold estado in H. rewrite eliminar_observador_eq in H. simpl in H.
  destruct (en_lista obs (_observadores (sistema w))) eqn:E; simpl in H.
  - rewrite en_lista_quitar in H by exact ND.
    rewrite Nat.eqb_refl in H. discriminate.
  - congruence.
Qed.

(** ** Further properties: Usuario.actualizar and the destinations *)

Lemma avisos_app (a b : list evento) : avisos (a ++ b) = avisos a ++ avisos b.
Proof. apply flat_map_app. Qed.

Lemma cuenta_lineas (u : Usuario) (mensaje : str) (cs : list str) :
  List.length (envios (map Imprime (flat_map (lineas_canal u mensaje) cs)))
  + List.length (avisos (map Imprime (flat_map (lineas_canal u mensaje) cs)))
  = List.length cs.
Proof.
  induction cs as [|c r IH]; simpl; [reflexivity|].
  rewrite map_app, envios_app, avisos_app, !length_app.
  unfold lineas_canal at 1 3.
  destruct (crear_notificacion c) as [[]|]; simpl; lia.
Qed.

(** X9. [Usuario.actualizar] handles every entry of the channel list with
    exactly one line, a delivery or an unknown-channel warning: the
    deliveries and the warnings together are as many as the entries. *)
Theorem Usuario_actualizar_una_linea_por_canal :
  forall (u : Usuario) (mensaje : str) (w : mundo),
    List.length (envios (traza (Usuario_actualizar u mensaje) w))
    + List.length (avisos (traza (Usuario_actualizar u mensaje) w))
    = List.length (canales_preferidos u).
Proof.
  intros u mensaje w.
  rewrite (@traza_escribir _ _ _
             (map Imprime
                (L_usuario_recibe (nombre u) mensaje
                 :: flat_map (lineas_canal u mensaje) (canales_preferidos u)))).
  - simpl. apply cuenta_lineas.
  - unfold estado. rewrite Usuario_actualizar_eq. reflexivity.
Qed.

(** X10. A notification whose subscribers are [Usuario] objects changes
    neither the subscriber list nor any object; it only prints. *)
Theorem notificar_usuarios_conserva :
  forall (mensaje : str) (w : mundo),
    todos_usuarios w (_observadores (sistema w)) = true ->
    sistema (estado (notificar_observadores mensaje) w) = sistema w
    /\ objetos (estado (notificar_observadores mensaje) w) = objetos w.
Proof.
  intros mensaje w H. unfold estado.
  rewrite notificar_observadores_usuarios by exact H. split; reflexivity.
Qed.

Lemma envio_canal_mensaje (u : Usuario) (mensaje : str) (cs : list str) :
  Forall (fun l => mensaje_de_envio l = Some mensaje)
    (flat_map (envio_canal u mensaje) cs).
Proof.
  induction cs as [|c r IH]; simpl; [constructor|].
  apply Forall_app. split; [|exact IH].
  unfold envio_canal. destruct (crear_notificacion c) as [[]|];
    repeat constructor.
Qed.

(** X11. When the subscribers are [Usuario] objects, every delivery of a
    notification carries the message that was passed to
    [notificar_observadores], unchanged. *)
Theorem envios_llevan_el_mensaje :
  forall (mensaje : str) (w : mundo),
    todos_usuarios w (_observadores (sistema w)) = true ->
    Forall (fun l => mensaje_de_envio l = Some mensaje)
      (envios (traza (notificar_observadores mensaje) w)).
Proof.
  intros mensaje w H.
  rewrite (@traza_escribir _ _ _
             (Imprime (L_notificando
                         (List.length (_observadores (sistema w))) mensaje)
              :: flat_map (fun obs =>
                   Llama obs mensaje
                   :: map Imprime (lineas_observador (objetos w obs) mensaje))
                   (_observadores (sistema w)))).
  - simpl. rewrite envios_observadores. clear H.
    induction (_observadores (sistema w)) as [|o r IH]; simpl; [constructor|].
    apply Forall_app. split; [|exact IH].
    destruct (objetos w o) as [u|f]; simpl; [|constructor].
    apply envio_canal_mensaje.
  - unfold estado. rewrite notificar_observadores_usuarios by exact H.
    reflexivity.
Qed.

(** X12. The destination of a delivery is never the empty string when the
    user's name is not empty, whatever the entry and whether or not an
    address and a telephone are stored. *)
Theorem destino_no_vacio :
  forall (u : Usuario) (canal : str),
    nombre u <> [] -> destino u canal <> [].
Proof.
  intros u canal Hn. unfold destino.
  destruct (str_eqb (lower canal) (lit "email")).
  - destruct (email u) as [|c r] eqn:E; simpl; [|discriminate].
    intros H. apply app_eq_nil in H as [_ H]. discriminate H.
  - destruct (str_eqb (lower canal) (lit "sms")).
    + destruct (telefono u) as [|c r] eqn:E; simpl; discriminate.
    + destruct (str_eqb (lower canal) (lit "push")); exact Hn.
Qed.

(** X13. For an entry without white space at its ends, the destination is
    the one of the notifier that the factory returns: address (or the
    lower-cased name at example.com) for Email, telephone (or ten zeros) for
    SMS, name for Push. *)
Theorem destino_segun_notificador :
  forall (u : Usuario) (canal : str) (n : INotificacion),
    strip canal = canal ->
    crear_notificacion canal = Some n ->
    destino u canal = destino_de u n.
Proof.
  intros u canal n Hs. unfold crear_notificacion, destino. rewrite Hs.
  destruct (str_eqb (lower canal) (lit "email")).
  - intros H; inversion H; reflexivity.
  - destruct (str_eqb (lower canal) (lit "sms")).
    + intros H; inversion H; reflexivity.
    + destruct (str_eqb (lower canal) (lit "push")).
      * intros H; inversion H; reflexivity.
      * discriminate.
Qed.

(** ** Further properties: the factory *)

Lemma forallb_rev {A} (f : A -> bool) (l : list A) :
  forallb f l = true -> forallb f (rev l) = true.
Proof.
  rewrite !forallb_forall. intros H x Hx. apply H, in_rev, Hx.
Qed.

Lemma rstrip_app (s post : str) :
  forallb isspace post = true -> rstrip (s ++ post) = rstrip s.
Proof.
  intros H. unfold rstrip. rewrite rev_app_distr, lstrip_app; [reflexivity|].
  apply forallb_rev, H.
Qed.

Lemma lstrip_app_der (s post : str) :
  forallb isspace post = true ->
  lstrip (s ++ post) = match lstrip s with
                       | [] => []
                       | c :: r => (c :: r) ++ post
                       end.
Proof.
  intros H. induction s as [|c r IH]; simpl.
  - apply lstrip_blancos, H.
  - destruct (isspace c); [exact IH | reflexivity].
Qed.

Lemma strip_blancos (pre s post : str) :
  forallb isspace pre = true -> forallb isspace post = true ->
  strip (pre ++ s ++ post) = strip s.
Proof.
  intros Hpre Hpost. unfold strip.
  rewrite lstrip_app by exact Hpre. rewrite lstrip_app_der by exact Hpost.
  destruct (lstrip s) as [|c r]; [reflexivity|].
  apply rstrip_app, Hpost.
Qed.

(** X14. White space before and after an identifier, of any kind that
    [str.strip] removes and around any string, does not change what the
    factory returns. *)
Theorem crear_notificacion_ignora_blancos :
  forall (pre tipo post : str),
    forallb isspace pre = true -> forallb isspace post = true ->
    crear_notificacion (pre ++ tipo ++ post) = crear_notificacion tipo.
Proof.
  intros pre tipo post Hpre Hpost. unfold crear_notificacion.
  rewrite strip_blancos by assumption. reflexivity.
Qed.

(** X18. The empty string and every string of white space only are
    unknown to the factory: it returns [None]. *)
Theorem crear_notificacion_en_blanco :
  forall tipo : str,
    forallb isspace tipo = true -> crear_notificacion tipo = None.
Proof.
  intros tipo H. unfold crear_notificacion, strip.
  rewrite (lstrip_blancos tipo H). reflexivity.
Qed.

Lemma lstrip_map_lower (s : str) :
  lstrip (map ascii_lower s) = map ascii_lower (lstrip s).
Proof.
  induction s as [|c r IH]; simpl; [reflexivity|].
  rewrite isspace_ascii_lower. destruct (isspace c); [exact IH | reflexivity].
Qed.

Lemma strip_map_lower (s : str) :
  strip (map ascii_lower s) = map ascii_lower (strip s).
Proof.
  unfold strip, rstrip.
  now rewrite lstrip_map_lower, <- map_rev, lstrip_map_lower, map_rev.
Qed.

Lemma forallb_lstrip (f : codepoint -> bool) (s : str) :
  forallb f s = true -> forallb f (lstrip s) = true.
Proof.
  induction s as [|c r IH]; simpl; [auto|].
  intros H. destruct (isspace c).
  - apply andb_true_iff in H as [_ H]. auto.
  - exact H.
Qed.

Lemma forallb_strip (f : codepoint -> bool) (s : str) :
  forallb f s = true -> forallb f (strip s) = true.
Proof.
  intros H. unfold strip, rstrip.
  apply forallb_rev, forallb_lstrip, forallb_rev, forallb_lstrip, H.
Qed.

Lemma lower_strip_ascii (x : str) :
  forallb is_ascii x = true ->
  lower (strip x) = strip (map ascii_lower x).
Proof.
  intros H. rewrite lower_ascii by (apply forallb_strip, H).
  now rewrite strip_map_lower.
Qed.

(** X15. Two ASCII identifiers that differ only in the case of their
    letters get the same answer from the factory. *)
Theorem crear_notificacion_ignora_mayusculas :
  forall (x y : str),
    forallb is_ascii x = true -> forallb is_ascii y = true ->
    map ascii_lower x = map ascii_lower y ->
    crear_notificacion x = crear_notificacion y.
Proof.
  intros x y Hx Hy E. unfold crear_notificacion.
  rewrite (lower_strip_ascii x Hx), (lower_strip_ascii y Hy), E. reflexivity.
Qed.

(** ** Further properties: main *)

Ltac evaluar_main :=
  repeat (progress
            (unfold append_canal, escribir;
             cbn -[notificar_observadores mensaje_1 mensaje_2 mensaje_3
                   main_alice main_bob main_carla main_diego];
             repeat match goal with
                    | H : Nat.eqb _ _ = false |- _ => rewrite H
                    end;
             rewrite ?Nat.eqb_refl)).

Lemma main_eq (ra rb rc rd : ref) (w : mundo) :
  NoDup [ra; rb; rc; rd] ->
  exists tr objs,
    main ra rb rc rd w
    = (Normal tt,
       {| sistema := {| _observadores := [ra; rc; rd] |};
          objetos := objs;
          salida := salida w ++ tr |})
    /\ envios tr
       = flat_map (fun u => envios_usuario u mensaje_1)
           [main_alice; main_bob; main_carla; main_diego]
         ++ flat_map (fun u => envios_usuario u mensaje_2)
              [main_alice; main_carla; main_diego]
         ++ flat_map (fun u => envios_usuario u mensaje_3)
              [main_alice; main_carla; main_diego]
    /\ avisos tr = [(lit "Diego", lit "telegram")]
    /\ errores tr = [].
Proof.
  clear falla_print.
  intros ND.
  assert (F : Nat.eqb ra rb = false /\ Nat.eqb ra rc = false
              /\ Nat.eqb ra rd = false /\ Nat.eqb rb rc = false
              /\ Nat.eqb rb rd = false /\ Nat.eqb rc rd = false).
  { inversion ND as [|? ? Ha ND1]; subst.
    inversion ND1 as [|? ? Hb ND2]; subst.
    inversion ND2 as [|? ? Hc ND3]; subst.
    simpl in Ha, Hb, Hc.
    repeat split; apply Nat.eqb_neq; intros ->; tauto. }
  destruct F as [Fab [Fac [Fad [Fbc [Fbd Fcd]]]]].
  assert (Fba := Fab). rewrite Nat.eqb_sym in Fba.
  assert (Fca := Fac). rewrite Nat.eqb_sym in Fca.
  assert (Fda := Fad). rewrite Nat.eqb_sym in Fda.
  assert (Fcb := Fbc). rewrite Nat.eqb_sym in Fcb.
  assert (Fdb := Fbd). rewrite Nat.eqb_sym in Fdb.
  assert (Fdc := Fcd). rewrite Nat.eqb_sym in Fdc.
  clear ND.
  unfold main, bind. evaluar_main.
  rewrite (notificar_observadores_usuarios mensaje_1);
    [|evaluar_main; reflexivity].
  evaluar_main.
  rewrite (notificar_observadores_usuarios mensaje_2);
    [|evaluar_main; reflexivity].
  evaluar_main.
  rewrite (notificar_observadores_usuarios mensaje_3);
    [|evaluar_main; reflexivity].
  evaluar_main.
  unfold print, registrar. cbn [salida sistema objetos].
  repeat rewrite <- app_assoc.
  eexists. eexists. split; [reflexivity|].
  split; [vm_compute; reflexivity|]. split; vm_compute; reflexivity.
Qed.

(** X16. Whatever the state before it and whichever distinct references its
    four users get, [main] ends without an exception and leaves Alice, Carla
    and Diego subscribed, in that order. Its deliveries are those of the four
    users for the first message, then those of Alice, Carla and Diego for the
    second and for the third; the telegram entry added to Diego before the
    third notification adds no delivery and gives the only unknown-channel
    warning; no error diagnostic is printed. *)
Theorem main_completa :
  forall (ra rb rc rd : ref) (w : mundo),
    NoDup [ra; rb; rc; rd] ->
    valor (main ra rb rc rd) w = Normal tt
    /\ _observadores (sistema (estado (main ra rb rc rd) w)) = [ra; rc; rd]
    /\ envios (traza (main ra rb rc rd) w)
       = flat_map (fun u => envios_usuario u mensaje_1)
           [main_alice; main_bob; main_carla; main_diego]
         ++ flat_map (fun u => envios_usuario u mensaje_2)
              [main_alice; main_carla; main_diego]
         ++ flat_map (fun u => envios_usuario u mensaje_3)
              [main_alice; main_carla; main_diego]
    /\ avisos (traza (main ra rb rc rd) w) = [(lit "Diego", lit "telegram")]
    /\ errores (traza (main ra rb rc rd) w) = [].
Proof.
  intros ra rb rc rd w ND.
  destruct (main_eq w ND) as [tr [objs [E [H1 [H2 H3]]]]].
  assert (Ht : traza (main ra rb rc rd) w = tr).
  { apply traza_escribir. unfold estado. rewrite E. reflexivity. }
  unfold valor, estado. rewrite Ht, E. simpl. auto.
Qed.

End Notificaciones.

(** ** Concrete runs *)

(** The scenario of the specification: Alice (email, push) and Bob (sms)
    subscribed; one notification makes Alice's two deliveries and then
    Bob's one. *)
Example notificar_alice_bob :
  envios (traza (notificar_observadores sin_tabla sin_fallo (lit "X")) mundo_usuarios)
  = [L_email (lit "alice@example.com") (lit "X");
     L_push (lit "Alice") (lit "X");
     L_sms (lit "+5215550002222") (lit "X")].
Proof. reflexivity. Qed.

(** The specification's example: Diego without a stored address and with
    the channel email is reached at diego@example.com. *)
Example destino_diego :
  destino sin_tabla (Usuario_init (lit "Diego") [] [] (Some [lit "email"]))
    (lit "email")
  = lit "diego@example.com".
Proof. reflexivity. Qed.


(** The [actualizar] of observer 2 raises a [RuntimeError] and the
    [__repr__] of observer 2 raises in its turn: the [ValueError] leaves the
    notification from inside the [except] block and observer 3 is never
    called. *)
Example diagnostico_que_falla :
  valor (notificar_observadores sin_tabla repr_de_2_falla (lit "X")) mundo_mixto
  = Lanzada ValueError_repr
  /\ llamadas (traza (notificar_observadores sin_tabla repr_de_2_falla (lit "X"))
                 mundo_mixto)
     = [(1, lit "X"); (2, lit "X")].
Proof. split; reflexivity. Qed.




Lemma canal_desconocido_no_interrumpe_ejemplo :
  Usuario_actualizar sin_tabla diego (lit "X") mundo_usuarios
  = (Normal tt,
     escribir
       (map Imprime
          (L_usuario_recibe (lit "Diego") (lit "X")
           :: flat_map (lineas_canal sin_tabla diego (lit "X")) [lit "push"]
           ++ [L_canal_desconocido (lit "Diego") (lit "telegram")]
           ++ flat_map (lineas_canal sin_tabla diego (lit "X")) [lit "email"]))
       mundo_usuarios)
  /\ envios (traza (Usuario_actualizar sin_tabla diego (lit "X")) mundo_usuarios)
     = flat_map (envio_canal sin_tabla diego (lit "X")) [lit "push"]
       ++ flat_map (envio_canal sin_tabla diego (lit "X")) [lit "email"].
Proof.
  apply (@canal_desconocido_no_interrumpe sin_tabla diego (lit "X")
           mundo_usuarios [lit "push"] [lit "email"] (lit "telegram"));
    reflexivity.
Defined.

Lemma observadores_sin_repetir_ejemplo :
  _observadores (sistema (mundo_alcanzado sin_tabla sin_fallo)) = [1; 5]
  /\ NoDup (_observadores (sistema (mundo_alcanzado sin_tabla sin_fallo))).
Proof.
  split; [reflexivity|].
  apply (@observadores_sin_repetir sin_tabla sin_fallo (mundo_alcanzado sin_tabla sin_fallo)).
  unfold mundo_alcanzado.
  apply alc_eliminar, alc_notificar.
  repeat apply alc_agregar. apply alc_inicial.
Defined.

Lemma envios_en_orden_ejemplo :
  envios (traza (notificar_observadores sin_tabla sin_fallo (lit "X")) mundo_usuarios)
  = flat_map (fun obs => envios_observador sin_tabla (objetos mundo_usuarios obs)
                           (lit "X"))
      (_observadores (sistema mundo_usuarios))
  /\ forall u, envios_observador sin_tabla (ObsUsuario u) (lit "X")
               = flat_map (envio_canal sin_tabla u (lit "X"))
                   (canales_preferidos u).
Proof.
  apply (@envios_en_orden sin_tabla sin_fallo mundo_usuarios (lit "X")). reflexivity.
Defined.



(** ** Concrete runs for the further properties *)

Lemma eliminar_observador_ausente_ejemplo :
  eliminar_observador 9 mundo_usuarios = (Normal tt, mundo_usuarios).
Proof.
  apply (@eliminar_observador_ausente 9 mundo_usuarios). reflexivity.
Defined.

Lemma eliminar_observador_presente_ejemplo :
  exists antes despues,
    _observadores (sistema mundo_mixto) = antes ++ 2 :: despues
    /\ ~ In 2 antes
    /\ eliminar_observador 2 mundo_mixto
       = (Normal tt,
          {| sistema := {| _observadores := antes ++ despues |};
             objetos := objetos mundo_mixto;
             salida := salida mundo_mixto
                       ++ [Imprime (L_observador_eliminado 2)] |}).
Proof.
  apply (@eliminar_observador_presente 2 mundo_mixto). reflexivity.
Defined.

Lemma eliminar_observador_idempotente_ejemplo :
  eliminar_observador 2 (estado (eliminar_observador 2) mundo_mixto)
  = (Normal tt, estado (eliminar_observador 2) mundo_mixto).
Proof.
  apply (@eliminar_observador_idempotente 2 mundo_mixto).
  simpl. repeat constructor; simpl; intros H;
    repeat (destruct H as [H|H]; [discriminate H|]); exact H.
Defined.

Lemma agregar_eliminar_restaura_ejemplo :
  (agregar_observador 7 ;; eliminar_observador 7) mundo_usuarios
  = (Normal tt,
     {| sistema := {| _observadores := _observadores (sistema mundo_usuarios) |};
        objetos := objetos mundo_usuarios;
        salida := salida mundo_usuarios
                  ++ [Imprime (L_observador_agregado 7);
                      Imprime (L_observador_eliminado 7)] |}).
Proof.
  apply (@agregar_eliminar_restaura 7 mundo_usuarios). reflexivity.
Defined.

Lemma eliminar_observador_pertenencia_ejemplo :
  en_lista 3 (_observadores (sistema (estado (eliminar_observador 2) mundo_mixto)))
  = negb (Nat.eqb 3 2) && en_lista 3 (_observadores (sistema mundo_mixto)).
Proof.
  apply (@eliminar_observador_pertenencia 2 3 mundo_mixto).
  simpl. repeat constructor; simpl; intros H;
    repeat (destruct H as [H|H]; [discriminate H|]); exact H.
Defined.

Lemma notificar_observadores_solo_suscritos_ejemplo :
  en_lista 3 (_observadores (sistema mundo_mixto)) = true
  /\ lit "X" = lit "X".
Proof.
  apply (@notificar_observadores_solo_suscritos sin_tabla sin_fallo (lit "X") (lit "X")
           mundo_mixto 3).
  vm_compute. right. right. left. reflexivity.
Defined.

Lemma eliminado_no_es_llamado_ejemplo :
  ~ In (2, lit "X")
      (llamadas (traza (notificar_observadores sin_tabla sin_fallo (lit "X"))
                   (estado (eliminar_observador 2) mundo_mixto))).
Proof.
  apply (@eliminado_no_es_llamado sin_tabla sin_fallo 2 (lit "X") (lit "X") mundo_mixto).
  simpl. repeat constructor; simpl; intros H;
    repeat (destruct H as [H|H]; [discriminate H|]); exact H.
Defined.

Lemma notificar_usuarios_conserva_ejemplo :
  sistema (estado (notificar_observadores sin_tabla sin_fallo (lit "X")) mundo_usuarios)
  = sistema mundo_usuarios
  /\ objetos (estado (notificar_observadores sin_tabla sin_fallo (lit "X")) mundo_usuarios)
     = objetos mundo_usuarios.
Proof.
  apply (@notificar_usuarios_conserva sin_tabla sin_fallo (lit "X") mundo_usuarios).
  reflexivity.
Defined.

Lemma envios_llevan_el_mensaje_ejemplo :
  Forall (fun l => mensaje_de_envio l = Some (lit "X"))
    (envios (traza (notificar_observadores sin_tabla sin_fallo (lit "X")) mundo_usuarios)).
Proof.
  apply (@envios_llevan_el_mensaje sin_tabla sin_fallo (lit "X") mundo_usuarios).
  reflexivity.
Defined.

Lemma destino_no_vacio_ejemplo :
  destino sin_tabla diego (lit "fax") <> [].
Proof.
  apply (@destino_no_vacio sin_tabla diego (lit "fax")). discriminate.
Defined.

Lemma destino_segun_notificador_ejemplo :
  destino sin_tabla diego (lit "SMS") = destino_de sin_tabla diego SMSNotificacion.
Proof.
  apply (@destino_segun_notificador sin_tabla diego (lit "SMS") SMSNotificacion);
    reflexivity.
Defined.

Lemma crear_notificacion_ignora_blancos_ejemplo :
  crear_notificacion sin_tabla ([9%N; 32%N] ++ lit "Push" ++ [10%N; 12288%N])
  = crear_notificacion sin_tabla (lit "Push").
Proof.
  apply (@crear_notificacion_ignora_blancos sin_tabla [9%N; 32%N] (lit "Push")
           [10%N; 12288%N]); reflexivity.
Defined.

Lemma crear_notificacion_ignora_mayusculas_ejemplo :
  crear_notificacion sin_tabla (lit "EMAIL")
  = crear_notificacion sin_tabla (lit "eMail").
Proof.
  apply (@crear_notificacion_ignora_mayusculas sin_tabla (lit "EMAIL")
           (lit "eMail")); reflexivity.
Defined.

Lemma main_completa_ejemplo :
  valor (main sin_tabla sin_fallo 1 2 3 4) mundo_mixto = Normal tt
  /\ _observadores (sistema (estado (main sin_tabla sin_fallo 1 2 3 4) mundo_mixto))
     = [1; 3; 4]
  /\ envios (traza (main sin_tabla sin_fallo 1 2 3 4) mundo_mixto)
     = flat_map (fun u => envios_usuario sin_tabla u mensaje_1)
         [main_alice; main_bob; main_carla; main_diego]
       ++ flat_map (fun u => envios_usuario sin_tabla u mensaje_2)
            [main_alice; main_carla; main_diego]
       ++ flat_map (fun u => envios_usuario sin_tabla u mensaje_3)
            [main_alice; main_carla; main_diego]
  /\ avisos (traza (main sin_tabla sin_fallo 1 2 3 4) mundo_mixto)
     = [(lit "Diego", lit "telegram")]
  /\ errores (traza (main sin_tabla sin_fallo 1 2 3 4) mundo_mixto) = [].
Proof.
  apply (@main_completa sin_tabla sin_fallo 1 2 3 4 mundo_mixto).
  repeat constructor; simpl; intros H;
    repeat (destruct H as [H|H]; [discriminate H|]); exact H.
Defined.

Lemma resuscribir_pasa_al_final_ejemplo :
  exists antes despues,
    _observadores (sistema mundo_mixto) = antes ++ 1 :: despues
    /\ valor (eliminar_observador 1 ;; agregar_observador 1) mundo_mixto
       = Normal tt
    /\ _observadores
         (sistema (estado (eliminar_observador 1 ;; agregar_observador 1)
                     mundo_mixto))
       = antes ++ despues ++ [1].
Proof.
  apply (@resuscribir_pasa_al_final 1 mundo_mixto).
  - simpl. repeat constructor; simpl; intros H;
      repeat (destruct H as [H|H]; [discriminate H|]); exact H.
  - reflexivity.
Defined.

Lemma crear_notificacion_en_blanco_ejemplo :
  crear_notificacion sin_tabla [32%N; 9%N; 160%N] = None.
Proof.
  apply (@crear_notificacion_en_blanco sin_tabla [32%N; 9%N; 160%N]).
  reflexivity.
Defined.
